(** * The to-do list web application (main.py): tables, session, views

    The program is a Flask application over three SQLAlchemy tables that
    matter to the task life cycle (categories, to_dos, got_dones) and a
    users table.  Each view function reads and writes the database
    through the request's SQLAlchemy session and returns a redirect or a
    rendered template; an exception that no view catches becomes the
    HTTP 500 answer of that request.

    The embedding follows the file top to bottom:
    - the four model classes as records, one module per class;
    - the database as four lists of rows in rowid order;
    - the session as a list of pending changes that [commit] flushes in
      one transaction, rolling back on IntegrityError;
    - the view functions as computations in a small state-and-exception
      monad, one definition per view, under the source's names. *)

From Stdlib Require Import ZArith List String Ascii Bool Lia.
From Stdlib Require Import Sorting.Permutation Sorting.Sorted.
Import ListNotations.
Local Open Scope string_scope.
Local Open Scope Z_scope.
Local Open Scope list_scope.

(** ** Values *)

(** A [datetime.date], as its proleptic Gregorian ordinal
    ([date.toordinal()]): [<] on dates is [<] on ordinals. *)
Definition date := Z.

(** Python text: a [str] whose code points are below 256, one [ascii]
    per code point. *)
Definition isspace (c : ascii) : bool :=
  let n := Z.of_nat (nat_of_ascii c) in
  ((9 <=? n) && (n <=? 13)) || ((28 <=? n) && (n <=? 32))
  || (n =? 133) || (n =? 160).

(** [bool(s.strip())]: some character of [s] is not white space. *)
Fixpoint strip_nonempty (s : string) : bool :=
  match s with
  | EmptyString => false
  | String c s' => if isspace c then strip_nonempty s' else true
  end.

(** ** DATABASE SETUP (lines 28-73) *)

Module Categories.
Record t := mk { id : Z; name : string }.
(** "returns name of Category when printed instead of <Categories ID>" *)
Definition __repr__ (self : t) : string := name self.
End Categories.

Module ToDos.
Record t := mk {
  id : Z;
  name : string;
  parent_id : option Z;       (* ForeignKey("categories.id"), nullable *)
  due_date : option date      (* db.Date, nullable *)
}.
Definition __repr__ (self : t) : string := name self.
End ToDos.

Module GotDones.
Record t := mk {
  id : Z;
  name : string;
  category : string;          (* db.String, not a foreign key *)
  date : option date
}.
Definition __repr__ (self : t) : string := name self.
End GotDones.

Module User.
Record t := mk {
  id : Z;
  parent_id : option Z;       (* ForeignKey("to_dos.id") *)
  email : string;
  password : string;
  name : string
}.
End User.

(** The committed content of the SQLite file, every table in rowid order. *)
Record DB := mkDB {
  categories : list Categories.t;
  to_dos : list ToDos.t;
  got_dones : list GotDones.t;
  users : list User.t
}.

(** The row of a table with primary key [i]. *)
Definition lookup {A} (key : A -> Z) (i : Z) (l : list A) : option A :=
  find (fun r => key r =? i) l.

(** The row that [relationship("Categories", ...)] joins to a to-do
    through [parent_id]. *)
Definition related_category (d : DB) (t : ToDos.t) : option Categories.t :=
  match ToDos.parent_id t with
  | Some p => lookup Categories.id p (categories d)
  | None => None
  end.

(** [str(x)] of a [parent_category]: the class's [__repr__], and
    ["None"] for Python's [None]. *)
Definition str (x : option Categories.t) : string :=
  match x with
  | Some c => Categories.__repr__ c
  | None => "None"
  end.

(** ** Exceptions and answers *)

Inductive exn :=
| AttributeError (type_name attribute : string)
| IntegrityError
| UnmappedInstanceError
| HTTP_NotFound.                (* werkzeug's NotFound, from get_or_404 *)

Inductive url_value :=
| v_int (n : Z)
| v_str (s : string)
| v_bool (b : bool).

(** A keyword argument handed to [render_template]. *)
Inductive template_value :=
| t_to_dos (l : list ToDos.t)
| t_to_do (x : option ToDos.t)
| t_categories (l : list Categories.t)
| t_category (x : option Categories.t)
| t_got_dones (l : list GotDones.t)
| t_form (errors : list (string * string))
| t_bool (b : bool).

Inductive response :=
| redirect (endpoint : string) (values : list (string * url_value))
| render_template (template : string) (context : list (string * template_value))
| NotFound                                  (* 404 *)
| InternalServerError (e : exn).            (* 500: the exception left the view *)

(** ** The request context

    What a view reads from Flask's globals: Flask-Login's [current_user],
    the request method, the submitted form after WTForms has processed
    it, and the clock. *)

Inductive http_method := GET | POST.

Record Request := mkRequest {
  is_authenticated : bool;            (* current_user.is_authenticated *)
  method : http_method;
  csrf_token_valid : bool;            (* FlaskForm's csrf_token field *)
  form_name : option string;          (* formdata["name"], None if absent *)
  form_category : option string;      (* formdata["category"] *)
  form_due_date : option (option date);
    (* formdata["due_date"]: absent; present and not "%Y-%m-%d"
       ([Some None]); present and parsed *)
  today : date                        (* dt.datetime.now().date() *)
}.

(** ** The SQLAlchemy session *)

(** One unit of work recorded by [db.session.add], [db.session.delete]
    or an attribute assignment on a loaded row. *)
Inductive change :=
| add_Categories (name : string)
| add_ToDos (name : string) (parent_category : option Categories.t)
            (due_date : option date)
| add_GotDones (name category : string) (date : option date)
| set_Categories_name (id : Z) (name : string)
| set_ToDos (id : Z) (name : string) (parent_category : option Categories.t)
            (due_date : option date)
| delete_Categories (id : Z)
| delete_ToDos (id : Z)
| delete_GotDones (id : Z).

(** SQLite gives an INTEGER PRIMARY KEY row the largest rowid in use
    plus one, and 1 in an empty table. *)
Definition next_id (ids : list Z) : Z := fold_right Z.max 0 ids + 1.

Definition name_taken (n : string) (l : list Categories.t) : bool :=
  existsb (fun c => String.eqb (Categories.name c) n) l.

Definition rename_row (i : Z) (n : string) (c : Categories.t) : Categories.t :=
  if Categories.id c =? i then Categories.mk (Categories.id c) n else c.

Definition rewrite_row (i : Z) (n : string) (p : option Z) (d : option date)
    (t : ToDos.t) : ToDos.t :=
  if ToDos.id t =? i then ToDos.mk (ToDos.id t) n p d else t.

(** A one-to-many relationship without a delete cascade: deleting the
    parent row sets the foreign key of its children to NULL. *)
Definition orphan_to_do (i : Z) (t : ToDos.t) : ToDos.t :=
  match ToDos.parent_id t with
  | Some p => if p =? i
              then ToDos.mk (ToDos.id t) (ToDos.name t) None (ToDos.due_date t)
              else t
  | None => t
  end.

Definition orphan_user (i : Z) (u : User.t) : User.t :=
  match User.parent_id u with
  | Some p => if p =? i
              then User.mk (User.id u) None (User.email u) (User.password u)
                           (User.name u)
              else u
  | None => u
  end.

(** The statement one change emits, on the tables of the open
    transaction.  Only categories.name carries a UNIQUE constraint. *)
Definition apply_change (d : DB) (c : change) : DB + exn :=
  match c with
  | add_Categories n =>
      if name_taken n (categories d) then inr IntegrityError
      else inl (mkDB (categories d
                        ++ [Categories.mk
                              (next_id (map Categories.id (categories d))) n])
                     (to_dos d) (got_dones d) (users d))
  | add_ToDos n p due =>
      inl (mkDB (categories d)
                (to_dos d
                   ++ [ToDos.mk (next_id (map ToDos.id (to_dos d))) n
                                (option_map Categories.id p) due])
                (got_dones d) (users d))
  | add_GotDones n cat dt =>
      inl (mkDB (categories d) (to_dos d)
                (got_dones d
                   ++ [GotDones.mk (next_id (map GotDones.id (got_dones d)))
                                   n cat dt])
                (users d))
  | set_Categories_name i n =>
      if name_taken n (filter (fun c => negb (Categories.id c =? i))
                              (categories d))
      then inr IntegrityError
      else inl (mkDB (map (rename_row i n) (categories d))
                     (to_dos d) (got_dones d) (users d))
  | set_ToDos i n p due =>
      inl (mkDB (categories d)
                (map (rewrite_row i n (option_map Categories.id p) due)
                     (to_dos d))
                (got_dones d) (users d))
  | delete_Categories i =>
      inl (mkDB (filter (fun c => negb (Categories.id c =? i)) (categories d))
                (map (orphan_to_do i) (to_dos d))
                (got_dones d) (users d))
  | delete_ToDos i =>
      inl (mkDB (categories d)
                (filter (fun t => negb (ToDos.id t =? i)) (to_dos d))
                (got_dones d)
                (map (orphan_user i) (users d)))
  | delete_GotDones i =>
      inl (mkDB (categories d) (to_dos d)
                (filter (fun g => negb (GotDones.id g =? i)) (got_dones d))
                (users d))
  end.

(** The flush of a commit: every pending change in turn, stopping at the
    first statement the database refuses. *)
Fixpoint flush (d : DB) (cs : list change) : DB + exn :=
  match cs with
  | [] => inl d
  | c :: cs' =>
      match apply_change d c with
      | inl d' => flush d' cs'
      | inr e => inr e
      end
  end.

(** ** The view monad: committed database, pending changes, flashes *)

Record world := mkWorld {
  db : DB;
  pending : list change;
  flashes : list string
}.

Inductive result (A : Type) :=
| Ok (a : A)
| Raise (e : exn).
Arguments Ok {A} a.
Arguments Raise {A} e.

Definition M (A : Type) : Type := world -> result A * world.

Definition ret {A} (a : A) : M A := fun w => (Ok a, w).

Definition bind {A B} (m : M A) (k : A -> M B) : M B :=
  fun w =>
    match m w with
    | (Ok a, w') => k a w'
    | (Raise e, w') => (Raise e, w')
    end.

Definition raise {A} (e : exn) : M A := fun w => (Raise e, w).

(** [try: body  except IntegrityError: handler] *)
Definition try_except_IntegrityError (body handler : M unit) : M unit :=
  fun w =>
    match body w with
    | (Raise IntegrityError, w') => handler w'
    | r => r
    end.

Declare Scope view_scope.
Delimit Scope view_scope with view.
Notation "x <- m ;; k" := (bind m (fun x => k))
  (at level 61, m at next level, right associativity) : view_scope.
Notation "m ;; k" := (bind m (fun _ => k))
  (at level 61, right associativity) : view_scope.
Local Open Scope view_scope.

Definition flash (message : string) : M unit :=
  fun w => (Ok tt, mkWorld (db w) (pending w) (flashes w ++ [message])).

(** [db.session.query(T).all()] *)
Definition query_all {A} (table : DB -> list A) : M (list A) :=
  fun w => (Ok (table (db w)), w).

(** [db.session.get(T, id)]: the row with that primary key, or [None]. *)
Definition session_get {A} (table : DB -> list A) (key : A -> Z) (i : Z)
    : M (option A) :=
  fun w => (Ok (lookup key i (table (db w))), w).

(** [Categories.query.filter_by(name=n).first()] *)
Definition filter_by_name_first (n : option string) : M (option Categories.t) :=
  fun w =>
    (Ok match n with
        | Some s => find (fun c => String.eqb (Categories.name c) s)
                         (categories (db w))
        | None => None
        end, w).

(** The lazy load behind [to_do.parent_category]. *)
Definition parent_category (t : ToDos.t) : M (option Categories.t) :=
  fun w => (Ok (related_category (db w) t), w).

(** The first attribute read on a looked-up row: [None] has no
    attributes. *)
Definition getattr {A} (x : option A) (attribute : string) : M A :=
  match x with
  | Some a => ret a
  | None => raise (AttributeError "NoneType" attribute)
  end.

(** [to_do.subtasks]: the class ToDos (lines 39-50) declares id, name,
    parent_id, parent_category, due_date and parent_user, and no other
    class of the file adds a relationship to it, so the read raises
    AttributeError on a row as it does on [None].  There is no class
    for the elements either. *)
Definition subtasks (x : option ToDos.t) : M (list Empty_set) :=
  match x with
  | Some _ => raise (AttributeError "ToDos" "subtasks")
  | None => raise (AttributeError "NoneType" "subtasks")
  end.

Definition session_add (c : change) : M unit :=
  fun w => (Ok tt, mkWorld (db w) (pending w ++ [c]) (flashes w)).

(** [db.session.delete(x)]; [None] is not a mapped instance. *)
Definition session_delete {A} (x : option A) (del : A -> change) : M unit :=
  match x with
  | Some a => session_add (del a)
  | None => raise UnmappedInstanceError
  end.

(** [db.session.commit()]: the pending changes are flushed in one
    transaction.  If a statement fails the transaction is rolled back,
    the pending changes are dropped and the exception is raised. *)
Definition commit : M unit :=
  fun w =>
    match flush (db w) (pending w) with
    | inl d' => (Ok tt, mkWorld d' [] (flashes w))
    | inr e => (Raise e, mkWorld (db w) [] (flashes w))
    end.

(** The primary key a row added to [table] receives at the next flush. *)
Definition new_id {A} (table : DB -> list A) (key : A -> Z) : M Z :=
  fun w => (Ok (next_id (map key (table (db w)))), w).

Fixpoint for_each {A} (l : list A) (body : A -> M unit) : M unit :=
  match l with
  | [] => ret tt
  | a :: l' => body a ;; for_each l' body
  end.

(** [db.get_or_404(T, id)] *)
Definition get_or_404 {A} (table : DB -> list A) (key : A -> Z) (i : Z) : M A :=
  x <- session_get table key i ;;
  match x with
  | Some a => ret a
  | None => raise HTTP_NotFound
  end.

(** What one request leaves behind: the committed database (changes
    never committed are discarded with the session), the flashed
    messages and the answer. *)
Record outcome := mkOutcome {
  store : DB;
  flashed : list string;
  answer : response
}.

Definition serve (view : M response) (d : DB) : outcome :=
  match view (mkWorld d [] []) with
  | (Ok r, w) => mkOutcome (db w) (flashes w) r
  | (Raise HTTP_NotFound, w) => mkOutcome (db w) (flashes w) NotFound
  | (Raise e, w) => mkOutcome (db w) (flashes w) (InternalServerError e)
  end.

(** Line 86: Flask-Login's user loader. *)
Definition load_user (user_id : Z) : M User.t :=
  get_or_404 users User.id user_id.

(** ** CREATE FORMS (lines 91-117) *)

(** "custom validator to check date in wtform entry is not before
    today's date, raise Validation Error if it is": [Some message] is
    the raised ValidationError. *)
Definition date_check (now_date field_data : date) : option string :=
  if field_data <? now_date then Some "Due Date can't be in the past!"
  else None.

(** The outcome of [form.validate_on_submit()]: the data of the fields
    when the form was submitted and every validator passed, and
    otherwise [form.errors] (empty when nothing was submitted). *)
Inductive validated (A : Type) :=
| Valid (data : A)
| Invalid (errors : list (string * string)).
Arguments Valid {A} data.
Arguments Invalid {A} errors.

Definition is_submitted (rq : Request) : bool :=
  match method rq with POST => true | GET => false end.

(** A field the form did not receive keeps its default. *)
Definition process {A} (formdata default : option A) : option A :=
  match formdata with
  | Some a => Some a
  | None => default
  end.

(** A field's validators give its data or the one message WTForms keeps
    for it.  [DataRequired] on a text field wants [data] and
    [data.strip()] to be true. *)
Definition DataRequired (data : option string) : string + string :=
  match data with
  | Some s => if strip_nonempty s then inl s
              else inr "This field is required."
  | None => inr "This field is required."
  end.

(** SelectField with [choices=categories]: [pre_validate] accepts the
    data when it equals [str(choice)] for one of the choices; then
    [DataRequired], which replaces the field's earlier errors. *)
Definition validate_category (choices : list Categories.t)
    (data : option string) : string + string :=
  match DataRequired data with
  | inl s => if existsb (fun c => String.eqb (str (Some c)) s) choices
             then inl s else inr "Not a valid choice."
  | inr e => inr e
  end.

(** DateField with [DataRequired(), date_check]: a date is true, [None]
    (nothing sent, or text that is not a date) is required. *)
Definition validate_due_date (now_date : date) (data : option date)
    : date + string :=
  match data with
  | Some d => match date_check now_date d with
              | Some e => inr e
              | None => inl d
              end
  | None => inr "This field is required."
  end.

Definition field_errors {A} (field : string) (r : A + string)
    : list (string * string) :=
  match r with
  | inl _ => []
  | inr e => [(field, e)]
  end.

Definition csrf_errors (rq : Request) : list (string * string) :=
  if csrf_token_valid rq then []
  else [("csrf_token", "The CSRF token is invalid.")].

(** CategoryForm and UpdateCategoryForm: one required text field. *)
Definition CategoryForm (rq : Request) : validated string :=
  if is_submitted rq then
    let name := DataRequired (form_name rq) in
    match csrf_token_valid rq, name with
    | true, inl n => Valid n
    | _, _ => Invalid (field_errors "name" name ++ csrf_errors rq)
    end
  else Invalid [].

Definition UpdateCategoryForm := CategoryForm.

(** ToDoForm and UpdateToDoForm, the classes built inside the two
    views, have the same three fields: [choices] are the categories
    read at the top of the view, the defaults are [None] in ToDoForm
    (line 236) and the row's values in UpdateToDoForm. *)
Definition ToDoForm_data_name (rq : Request) (default : option string) :=
  process (form_name rq) default.

Definition ToDoForm_data_category (rq : Request)
    (default : option Categories.t) : option string :=
  process (form_category rq) (option_map (fun c => str (Some c)) default).

Definition ToDoForm_data_due_date (rq : Request) (default : option date)
    : option date :=
  match form_due_date rq with
  | Some parsed => parsed
  | None => default
  end.

Definition ToDoForm (rq : Request) (choices : list Categories.t)
    (default_name : option string) (default_category : option Categories.t)
    (default_due_date : option date) : validated (string * string * date) :=
  if is_submitted rq then
    let name := DataRequired (ToDoForm_data_name rq default_name) in
    let category :=
      validate_category choices (ToDoForm_data_category rq default_category) in
    let due_date :=
      validate_due_date (today rq)
                        (ToDoForm_data_due_date rq default_due_date) in
    match csrf_token_valid rq, name, category, due_date with
    | true, inl n, inl c, inl d => Valid (n, c, d)
    | _, _, _, _ =>
        Invalid (field_errors "name" name ++ field_errors "category" category
                 ++ field_errors "due_date" due_date ++ csrf_errors rq)
    end
  else Invalid [].

(** Lines 269-274: the defaults are the values of the row being
    updated. *)
Definition UpdateToDoForm (rq : Request) (choices : list Categories.t)
    (to_do_update : ToDos.t) (to_do_update_parent_category : option Categories.t)
    : validated (string * string * date) :=
  ToDoForm rq choices (Some (ToDos.name to_do_update))
           to_do_update_parent_category (ToDos.due_date to_do_update).

(** ** CREATE ROUTES (lines 177-368)

    register, login and logout (lines 119-174) only touch the users
    table and the login session; the views below see their effect as
    [is_authenticated]. *)

Definition dashboard (rq : Request) : M response :=
  if negb (is_authenticated rq) then
    flash "You need to login or register to comment." ;;
    ret (redirect "login" [])
  else
    to_dos <- query_all to_dos ;;
    ret (render_template "index.html" [("all_to_dos", t_to_dos to_dos)]).

Definition add_new_category (rq : Request) : M response :=
  let form := CategoryForm rq in
  match form with
  | Valid name =>
      try_except_IntegrityError
        (session_add (add_Categories name) ;;
         commit)
        (flash "This Category already exists!") ;;
      ret (redirect "show_category" [("category", v_str name)])
  | Invalid errors =>
      ret (render_template "add-new-category.html" [("form", t_form errors)])
  end.

Definition show_category (category : string) (rq : Request) : M response :=
  requested_category <- filter_by_name_first (Some category) ;;
  c <- getattr requested_category "id" ;;
  ret (render_template "show-category.html" [("category", t_category (Some c))]).

Definition all_categories (rq : Request) : M response :=
  categories <- query_all categories ;;
  ret (render_template "all-categories.html"
         [("categories", t_categories categories)]).

Definition all_to_dos (rq : Request) : M response :=
  to_dos <- query_all to_dos ;;
  ret (render_template "all-to-dos.html" [("to_dos", t_to_dos to_dos)]).

Definition add_new_to_do (rq : Request) : M response :=
  categories <- query_all categories ;;
  let form := ToDoForm rq categories None None None in
  match form with
  | Valid (name, category_data, due_date) =>
      category <- filter_by_name_first (Some category_data) ;;
      new_to_do_id <- new_id to_dos ToDos.id ;;
      session_add (add_ToDos name category (Some due_date)) ;;
      commit ;;
      ret (redirect "show_to_do" [("to_do_id", v_int new_to_do_id)])
  | Invalid errors =>
      ret (render_template "add-new-to-do.html" [("form", t_form errors)])
  end.

Definition show_to_do (to_do_id : Z) (rq : Request) : M response :=
  requested_to_do <- session_get to_dos ToDos.id to_do_id ;;
  ret (render_template "show-to-do.html" [("to_do", t_to_do requested_to_do)]).

Definition update_to_do (to_do_id : Z) (rq : Request) : M response :=
  to_do_update <- session_get to_dos ToDos.id to_do_id ;;
  categories <- query_all categories ;;
  (* the class body of UpdateToDoForm reads the three defaults *)
  row <- getattr to_do_update "name" ;;
  default_category <- parent_category row ;;
  let form := UpdateToDoForm rq categories row default_category in
  category <- filter_by_name_first
                (ToDoForm_data_category rq default_category) ;;
  match form with
  | Valid (name, _, due_date) =>
      session_add (set_ToDos (ToDos.id row) name category (Some due_date)) ;;
      commit ;;
      subtask_update <- subtasks to_do_update ;;
      for_each subtask_update
        (fun subtask => match subtask return M unit with end) ;;
      ret (redirect "show_to_do"
             [("to_do_id", v_int (ToDos.id row)); ("delete", v_bool false)])
  | Invalid errors =>
      ret (render_template "update-to-do.html"
             [("form", t_form errors); ("to_do", t_to_do to_do_update)])
  end.

Definition delete (to_do_id : Z) (rq : Request) : M response :=
  requested_to_do <- session_get to_dos ToDos.id to_do_id ;;
  subtasks <- subtasks requested_to_do ;;
  match subtasks with
  | _ :: _ =>
      flash "You have subtasks that haven't been done yet!" ;;
      ret (render_template "show-to-do.html"
             [("to_do", t_to_do requested_to_do); ("delete", t_bool true)])
  | [] =>
      session_delete requested_to_do (fun t => delete_ToDos (ToDos.id t)) ;;
      commit ;;
      ret (redirect "dashboard" [])
  end.

Definition update_category (category_id : Z) (rq : Request) : M response :=
  category_update <- session_get categories Categories.id category_id ;;
  let form := UpdateCategoryForm rq in
  match form with
  | Valid name =>
      c <- getattr category_update "name" ;;
      session_add (set_Categories_name (Categories.id c) name) ;;
      commit ;;
      ret (redirect "show_category" [("category", v_str name)])
  | Invalid errors =>
      ret (render_template "update-category.html"
             [("form", t_form errors); ("category", t_category category_update)])
  end.

Definition mark_done (to_do_id : Z) (rq : Request) : M response :=
  requested_to_do <- session_get to_dos ToDos.id to_do_id ;;
  row <- getattr requested_to_do "name" ;;
  category <- parent_category row ;;
  let new_got_done :=
    add_GotDones (ToDos.name row) (str category) (Some (today rq)) in
  session_add new_got_done ;;
  session_delete requested_to_do (fun t => delete_ToDos (ToDos.id t)) ;;
  commit ;;
  ret (redirect "dashboard" [("to_do_id", v_int to_do_id)]).

(** [order_by(desc(GotDones.date))]: latest first, NULL dates last; rows
    of one date are kept in rowid order. *)
Definition date_geb (a b : option date) : bool :=
  match a, b with
  | Some x, Some y => y <=? x
  | Some _, None => true
  | None, Some _ => false
  | None, None => true
  end.

Fixpoint insert_desc (g : GotDones.t) (l : list GotDones.t) : list GotDones.t :=
  match l with
  | [] => [g]
  | h :: l' => if date_geb (GotDones.date h) (GotDones.date g)
               then h :: insert_desc g l' else g :: l
  end.

Definition order_by_desc_date (l : list GotDones.t) : list GotDones.t :=
  fold_left (fun acc g => insert_desc g acc) l [].

Definition got_done (rq : Request) : M response :=
  got_dones <- query_all got_dones ;;
  ret (render_template "got-done.html"
         [("all_got_dones", t_got_dones (order_by_desc_date got_dones))]).

Definition clear_got_done (rq : Request) : M response :=
  data_to_delete <- query_all got_dones ;;
  for_each data_to_delete
    (fun data =>
       session_delete (Some data) (fun g => delete_GotDones (GotDones.id g)) ;;
       commit) ;;
  ret (redirect "got_done" []).

Definition delete_to_do (to_do_id : Z) (rq : Request) : M response :=
  requested_to_do <- session_get to_dos ToDos.id to_do_id ;;
  session_delete requested_to_do (fun t => delete_ToDos (ToDos.id t)) ;;
  commit ;;
  ret (redirect "dashboard" []).

Definition clear_categories (rq : Request) : M response :=
  categories_to_delete <- query_all categories ;;
  for_each categories_to_delete
    (fun category =>
       session_delete (Some category)
         (fun c => delete_Categories (Categories.id c)) ;;
       commit) ;;
  ret (redirect "dashboard" []).

(** ** The application as a state machine

    [app.view_functions]: one call per endpoint; a run of requests
    threads the committed database from each request to the next. *)

Inductive call :=
| Dashboard
| Add_new_category
| Show_category (category : string)
| All_categories
| All_to_dos
| Add_new_to_do
| Show_to_do (to_do_id : Z)
| Update_to_do (to_do_id : Z)
| Delete (to_do_id : Z)
| Update_category (category_id : Z)
| Mark_done (to_do_id : Z)
| Got_done
| Clear_got_done
| Delete_to_do (to_do_id : Z)
| Clear_categories.

Definition view_function (c : call) : Request -> M response :=
  match c with
  | Dashboard => dashboard
  | Add_new_category => add_new_category
  | Show_category category => show_category category
  | All_categories => all_categories
  | All_to_dos => all_to_dos
  | Add_new_to_do => add_new_to_do
  | Show_to_do i => show_to_do i
  | Update_to_do i => update_to_do i
  | Delete i => delete i
  | Update_category i => update_category i
  | Mark_done i => mark_done i
  | Got_done => got_done
  | Clear_got_done => clear_got_done
  | Delete_to_do i => delete_to_do i
  | Clear_categories => clear_categories
  end.

Definition step (s : DB) (c : call * Request) : DB :=
  store (serve (view_function (fst c) (snd c)) s).

Definition run (s : DB) (l : list (call * Request)) : DB := fold_left step l s.

(** [app.url_map], for the routes above that take no parameter, in the
    order the decorators register them.  Werkzeug answers a URL with
    the first rule that matches it, so of the two rules registered for
    "/clear-got-done" (lines 342 and 361) the second is never chosen. *)
Definition url_map : list (string * call) :=
  [("/", Dashboard);
   ("/add-new-category", Add_new_category);
   ("/all-categories", All_categories);
   ("/all-to-dos", All_to_dos);
   ("/add-new-to-do", Add_new_to_do);
   ("/got-done", Got_done);
   ("/clear-got-done", Clear_got_done);
   ("/clear-got-done", Clear_categories)].

Definition match_url (path : string) : option call :=
  option_map snd (find (fun rule => String.eqb (fst rule) path) url_map).

(** The calls that rename a category or delete categories. *)
Definition changes_categories (c : call) : bool :=
  match c with
  | Update_category _ | Clear_categories => true
  | _ => false
  end.

Definition clears_archive (c : call) : bool :=
  match c with
  | Clear_got_done => true
  | _ => false
  end.

(** ** Vocabulary of the statements *)

(** How many category rows carry the name [n]. *)
Definition count_rows (n : string) (l : list Categories.t) : nat :=
  List.length (filter (fun c => String.eqb (Categories.name c) n) l).

(** The constraints the schema declares on categories: the primary key
    and [unique=True] on name. *)
Definition categories_wf (d : DB) : Prop :=
  NoDup (map Categories.id (categories d))
  /\ NoDup (map Categories.name (categories d)).

(** The row [mark_done] archives for the to-do [t] read in [s]. *)
Definition new_got_done (s : DB) (t : ToDos.t) (now_date : date) : GotDones.t :=
  GotDones.mk (next_id (map GotDones.id (got_dones s)))
              (ToDos.name t) (str (related_category s t)) (Some now_date).

Definition without_to_do (i : Z) (l : list ToDos.t) : list ToDos.t :=
  filter (fun t => negb (ToDos.id t =? i)) l.

(** A set of changes and a relation between databases that every
    change of the set respects. *)
Class Footprint (allowed : change -> bool) (R : DB -> DB -> Prop) : Prop := {
  R_refl : forall d, R d d;
  R_trans : forall a b c, R a b -> R b c -> R a c;
  R_change :
    forall d c d', allowed c = true -> apply_change d c = inl d' -> R d d'
}.

Definition respects (allowed : change -> bool) (R : DB -> DB -> Prop)
    {A} (m : M A) : Prop :=
  forall w, forallb allowed (pending w) = true ->
    forallb allowed (pending (snd (m w))) = true
    /\ R (db w) (db (snd (m w))).

(** The changes that leave the rows of got_dones in place, and what
    they can do to the archive: add rows at its end. *)
Definition keeps_archive (c : change) : bool :=
  match c with
  | delete_GotDones _ => false
  | _ => true
  end.

Definition archive_grows (d d' : DB) : Prop :=
  exists l, got_dones d' = got_dones d ++ l.

(** The changes on the other tables. *)
Definition leaves_archive (c : change) : bool :=
  match c with
  | add_GotDones _ _ _ | delete_GotDones _ => false
  | _ => true
  end.

Definition same_archive (d d' : DB) : Prop := got_dones d' = got_dones d.

Definition any_change (c : change) : bool := true.

Definition keeps_categories_wf (d d' : DB) : Prop :=
  categories_wf d -> categories_wf d'.

(** The same request, sent with or without a login session. *)
Definition with_session (b : bool) (rq : Request) : Request :=
  mkRequest b (method rq) (csrf_token_valid rq) (form_name rq)
            (form_category rq) (form_due_date rq) (today rq).

(** The rows of got_dones whose key is not among [ids]. *)
Definition minus_ids (ids : list Z) (l : list GotDones.t) : list GotDones.t :=
  filter (fun g => negb (existsb (Z.eqb (GotDones.id g)) ids)) l.

(** ** Sample data *)

Definition empty_db : DB := mkDB [] [] [] [].

(** A visitor who never logged in, following a link. *)
Definition anonymous : Request := mkRequest false GET false None None None 739000.

(** A logged-in user submitting a form on day 739000. *)
Definition submit (name category : option string) (due : option (option date))
    : Request :=
  mkRequest true POST true name category due 739000.

Definition work_db : DB :=
  mkDB [Categories.mk 1 "Work"]
       [ToDos.mk 1 "report" (Some 1) (Some 739010);
        ToDos.mk 2 "errand" None (Some 739002)]
       [] [].

Definition archive_of_one : DB :=
  mkDB [Categories.mk 1 "Work"] [ToDos.mk 2 "errand" None (Some 739002)]
       [GotDones.mk 1 "report" "Work" (Some 739000)] [].

Definition archive_of_two : DB :=
  mkDB [Categories.mk 1 "Work"] []
       [GotDones.mk 1 "report" "Work" (Some 739000);
        GotDones.mk 2 "errand" "None" (Some 739001)] [].

(** ** Accounts: RegisterForm, LoginForm, register, login, logout
    (lines 107-174) *)

(** werkzeug.security: [generate_password_hash(password,
    method='pbkdf2:sha256', salt_length=8)] with the salt it draws made
    an argument, [check_password_hash(pwhash, password)], and what the
    two promise each other. *)
Class PasswordHasher := {
  generate_password_hash : string -> string -> string;
  check_password_hash : string -> string -> bool;
  check_generated :
    forall salt password,
      check_password_hash (generate_password_hash salt password) password
      = true
}.

(** A request to register or login: the method, the token and
    formdata["name"] as in [Request], the two other fields of the forms
    and the salt the hash of this request draws. *)
Record AccountRequest := mkAccountRequest {
  base : Request;
  form_email : option string;
  form_password : option string;
  salt : string
}.

(** What the view did to Flask-Login's session. *)
Inductive login_session :=
| session_kept
| login_user (user_id : Z)
| logout_user.

Definition RegisterForm (rq : AccountRequest)
    : validated (string * string * string) :=
  if is_submitted (base rq) then
    let email := DataRequired (form_email rq) in
    let password := DataRequired (form_password rq) in
    let name := DataRequired (form_name (base rq)) in
    match csrf_token_valid (base rq), email, password, name with
    | true, inl e, inl p, inl n => Valid (e, p, n)
    | _, _, _, _ =>
        Invalid (field_errors "email" email ++ field_errors "password" password
                 ++ field_errors "name" name ++ csrf_errors (base rq))
    end
  else Invalid [].

Definition LoginForm (rq : AccountRequest) : validated (string * string) :=
  if is_submitted (base rq) then
    let email := DataRequired (form_email rq) in
    let password := DataRequired (form_password rq) in
    match csrf_token_valid (base rq), email, password with
    | true, inl e, inl p => Valid (e, p)
    | _, _, _ =>
        Invalid (field_errors "email" email ++ field_errors "password" password
                 ++ csrf_errors (base rq))
    end
  else Invalid [].

Definition email_taken (email : string) (l : list User.t) : bool :=
  existsb (fun u => String.eqb (User.email u) email) l.

(** [db.session.execute(db.select(User).where(User.email == email))
    .scalar()]: the first such row, or [None]. *)
Definition scalar_User_where_email (email : string) : M (option User.t) :=
  fun w =>
    (Ok (find (fun u => String.eqb (User.email u) email) (users (db w))), w).

(** [db.session.add(new_user); db.session.commit()] for a users row:
    the flush of the session, then the INSERT, which takes the next
    rowid and which UNIQUE on users.email can refuse. *)
Definition session_add_User_commit (email name password : string) : M User.t :=
  fun w =>
    match flush (db w) (pending w) with
    | inl d =>
        if email_taken email (users d)
        then (Raise IntegrityError, mkWorld (db w) [] (flashes w))
        else
          let new_user :=
            User.mk (next_id (map User.id (users d))) None email password name in
          (Ok new_user,
           mkWorld (mkDB (categories d) (to_dos d) (got_dones d)
                         (users d ++ [new_user]))
                   [] (flashes w))
    | inr e => (Raise e, mkWorld (db w) [] (flashes w))
    end.

(** [current_user], as far as a template of this model can see it. *)
Definition t_current_user (rq : AccountRequest) : string * template_value :=
  ("current_user", t_bool (is_authenticated (base rq))).

Definition register `{PasswordHasher} (rq : AccountRequest)
    : M (login_session * response) :=
  let form := RegisterForm rq in
  match form with
  | Valid (email, password, name) =>
      user <- scalar_User_where_email email ;;
      match user with
      | Some _ =>
          flash "You've already signed up with that email, log in instead!" ;;
          ret (session_kept, redirect "login" [])
      | None =>
          let hash_and_salted_password :=
            generate_password_hash (salt rq) password in
          new_user <- session_add_User_commit email name
                        hash_and_salted_password ;;
          ret (login_user (User.id new_user), redirect "dashboard" [])
      end
  | Invalid errors =>
      ret (session_kept,
           render_template "register.html"
             [("form", t_form errors); t_current_user rq])
  end.

Definition login `{PasswordHasher} (rq : AccountRequest)
    : M (login_session * response) :=
  let form := LoginForm rq in
  match form with
  | Valid (email, password) =>
      user <- scalar_User_where_email email ;;
      match user with
      | None =>
          flash "That email does not exist, please try again." ;;
          ret (session_kept, redirect "login" [])
      | Some u =>
          if negb (check_password_hash (User.password u) password) then
            flash "Password incorrect, please try again." ;;
            ret (session_kept, redirect "login" [])
          else
            ret (login_user (User.id u), redirect "dashboard" [])
      end
  | Invalid errors =>
      ret (session_kept,
           render_template "login.html"
             [("form", t_form errors); t_current_user rq])
  end.

Definition logout : M (login_session * response) :=
  ret (logout_user, redirect "dashboard" []).

Definition serve_account (view : M (login_session * response)) (d : DB)
    : login_session * outcome :=
  match view (mkWorld d [] []) with
  | (Ok (l, r), w) => (l, mkOutcome (db w) (flashes w) r)
  | (Raise HTTP_NotFound, w) =>
      (session_kept, mkOutcome (db w) (flashes w) NotFound)
  | (Raise e, w) =>
      (session_kept, mkOutcome (db w) (flashes w) (InternalServerError e))
  end.

(** Every route of the file: the views of [call] and the three account
    views, and the database a sequence of visits leaves. *)
Inductive visit :=
| to_view (c : call) (rq : Request)
| to_register (rq : AccountRequest)
| to_login (rq : AccountRequest)
| to_logout.

Definition visit_store `{PasswordHasher} (s : DB) (v : visit) : DB :=
  match v with
  | to_view c rq => step s (c, rq)
  | to_register rq => store (snd (serve_account (register rq) s))
  | to_login rq => store (snd (serve_account (login rq) s))
  | to_logout => store (snd (serve_account logout s))
  end.

Definition browse `{PasswordHasher} (s : DB) (l : list visit) : DB :=
  fold_left visit_store l s.

(** ** Vocabulary of the further statements *)

(** No change at all. *)
Definition no_change (c : change) : bool := false.

(** A property of the database that a step keeps. *)
Definition keeps (P : DB -> Prop) (d d' : DB) : Prop := P d -> P d'.

(** Primary keys, and the two UNIQUE columns. *)
Definition keys_unique (d : DB) : Prop :=
  NoDup (map Categories.id (categories d))
  /\ NoDup (map Categories.name (categories d))
  /\ NoDup (map ToDos.id (to_dos d))
  /\ NoDup (map GotDones.id (got_dones d))
  /\ NoDup (map User.id (users d))
  /\ NoDup (map User.email (users d)).

(** Every category a to-do points to is stored. *)
Definition references_hold (d : DB) : Prop :=
  forall t p, In t (to_dos d) -> ToDos.parent_id t = Some p ->
    exists c, lookup Categories.id p (categories d) = Some c.

(** The changes that give no to-do a category. *)
Definition sets_no_parent (c : change) : bool :=
  match c with
  | add_ToDos _ (Some _) _ | set_ToDos _ _ (Some _) _ => false
  | _ => true
  end.

(** No stored category has a blank name. *)
Definition names_filled (d : DB) : Prop :=
  forall c, In c (categories d) -> strip_nonempty (Categories.name c) = true.

Definition fills_names (c : change) : bool :=
  match c with
  | add_Categories n | set_Categories_name _ n => strip_nonempty n
  | _ => true
  end.

(** The changes update_to_do can record, and what they keep. *)
Definition rewrites_to_do (c : change) : bool :=
  match c with
  | set_ToDos _ _ _ _ => true
  | _ => false
  end.

Definition same_but_to_do_fields (d d' : DB) : Prop :=
  categories d' = categories d
  /\ got_dones d' = got_dones d
  /\ users d' = users d
  /\ map ToDos.id (to_dos d') = map ToDos.id (to_dos d).

(** Latest date first, rows without a date last. *)
Definition not_before (a b : GotDones.t) : Prop :=
  date_geb (GotDones.date a) (GotDones.date b) = true.

(** The visits that do not clear the archive. *)
Definition spares_archive (v : visit) : bool :=
  match v with
  | to_view c _ => negb (clears_archive c)
  | _ => true
  end.

(** The hasher of the examples: it keeps the password as it is. *)
Definition plain_hasher : PasswordHasher := {|
  generate_password_hash := fun _ password => password;
  check_password_hash := fun pwhash password => String.eqb pwhash password;
  check_generated := fun _ password => String.eqb_refl password
|}.

Definition sign_up (email password name : string) : AccountRequest :=
  mkAccountRequest (submit (Some name) None None) (Some email) (Some password)
                   "a1b2c3d4".

Definition members_db : DB :=
  mkDB [Categories.mk 1 "Work"; Categories.mk 2 "Home"]
       [ToDos.mk 1 "report" (Some 1) (Some 739010);
        ToDos.mk 2 "errand" None (Some 738990)]
       [GotDones.mk 1 "old" "Work" (Some 738000);
        GotDones.mk 2 "new" "Home" (Some 738500)]
       [User.mk 1 None "ann@example.org" "secret" "Ann"].

(** * Properties *)

(** ** Rows and keys *)

Lemma lookup_Some {A} (key : A -> Z) i l r :
  lookup key i l = Some r -> key r = i /\ In r l.
Proof.
  unfold lookup. intros H. apply find_some in H. destruct H as [Hin Hk].
  apply Z.eqb_eq in Hk. auto.
Qed.

Lemma lookup_None {A} (key : A -> Z) i l :
  lookup key i l = None -> forall r, In r l -> key r <> i.
Proof.
  unfold lookup. intros H r Hin Hk.
  apply (find_none _ _ H) in Hin. apply Z.eqb_neq in Hin. contradiction.
Qed.

Lemma lookup_absent {A} (key : A -> Z) i l :
  (forall r, In r l -> key r <> i) -> lookup key i l = None.
Proof.
  induction l as [|a l IH]; intros H; [reflexivity|].
  unfold lookup in *. simpl.
  destruct (Z.eqb_spec (key a) i) as [E|E].
  - exfalso. apply (H a); [left; reflexivity | exact E].
  - apply IH. intros r Hr. apply H. right. exact Hr.
Qed.

Lemma lookup_without {A} (key : A -> Z) i l :
  lookup key i (filter (fun r => negb (key r =? i)) l) = None.
Proof.
  apply lookup_absent. intros r Hr. apply filter_In in Hr.
  destruct Hr as [_ Hr]. apply negb_true_iff in Hr.
  apply Z.eqb_neq. exact Hr.
Qed.

Lemma lookup_last {A} (key : A -> Z) i l x :
  (forall r, In r l -> key r <> i) -> key x = i ->
  lookup key i (l ++ [x]) = Some x.
Proof.
  intros Hl Hx. induction l as [|a l IH]; unfold lookup in *; simpl.
  - apply Z.eqb_eq in Hx. rewrite Hx. reflexivity.
  - destruct (Z.eqb_spec (key a) i) as [E|E].
    + exfalso. apply (Hl a); [left; reflexivity | exact E].
    + apply IH. intros r Hr. apply Hl. right. exact Hr.
Qed.

Lemma next_id_above ids i : In i ids -> i < next_id ids.
Proof.
  unfold next_id. induction ids as [|a ids IH]; simpl; [tauto|].
  intros [E|Hin]; [subst; lia|].
  specialize (IH Hin). lia.
Qed.

Lemma next_id_fresh {A} (key : A -> Z) l r :
  In r l -> key r <> next_id (map key l).
Proof.
  intros Hin. pose proof (next_id_above (map key l) (key r) (in_map key l r Hin)).
  lia.
Qed.

Lemma name_taken_In n l :
  name_taken n l = true <-> In n (map Categories.name l).
Proof.
  unfold name_taken. rewrite existsb_exists. split.
  - intros [c [Hin E]]. apply String.eqb_eq in E. subst. apply in_map. exact Hin.
  - intros H. apply in_map_iff in H. destruct H as [c [E Hin]].
    exists c. split; [exact Hin | apply String.eqb_eq; exact E].
Qed.

Lemma name_taken_false n l :
  ~ In n (map Categories.name l) -> name_taken n l = false.
Proof.
  intros H. destruct (name_taken n l) eqn:E; [|reflexivity].
  apply name_taken_In in E. contradiction.
Qed.

Lemma count_rows_absent n l :
  ~ In n (map Categories.name l) -> count_rows n l = 0%nat.
Proof.
  unfold count_rows. induction l as [|c l IH]; simpl; intros H; [reflexivity|].
  destruct (String.eqb_spec (Categories.name c) n) as [E|E].
  - exfalso. apply H. left. exact E.
  - apply IH. intros Hin. apply H. right. exact Hin.
Qed.

Lemma count_rows_unique n l :
  NoDup (map Categories.name l) -> In n (map Categories.name l) ->
  count_rows n l = 1%nat.
Proof.
  induction l as [|c l IH]; simpl; intros Hnd Hin; [contradiction|].
  inversion Hnd as [|x xs Hnotin Hnd']; subst.
  unfold count_rows in *. simpl.
  destruct (String.eqb_spec (Categories.name c) n) as [E|E].
  - subst. simpl. f_equal. apply count_rows_absent. exact Hnotin.
  - destruct Hin as [Hin|Hin]; [contradiction|]. apply IH; assumption.
Qed.

Lemma count_rows_app n l l' :
  count_rows n (l ++ l') = (count_rows n l + count_rows n l')%nat.
Proof. unfold count_rows. rewrite filter_app, length_app. reflexivity. Qed.

(** ** What a commit can do

    A flush is all or nothing: either every pending change has been
    applied, or the database is the one the request found. *)

Lemma commit_all_or_nothing (w : world) :
  (exists d', flush (db w) (pending w) = inl d'
              /\ commit w = (Ok tt, mkWorld d' [] (flashes w)))
  \/ (exists e, flush (db w) (pending w) = inr e
                /\ commit w = (Raise e, mkWorld (db w) [] (flashes w))).
Proof.
  unfold commit. destruct (flush (db w) (pending w)) as [d'|e].
  - left. exists d'. split; reflexivity.
  - right. exists e. split; reflexivity.
Qed.

(** ** Footprints

    A view reaches the database only through the changes it hands to the
    session.  If every change in a set [allowed] moves the database
    along a preorder [R], a computation that only records allowed
    changes moves it along [R] as well. *)

Section Footprint.
Context {allowed : change -> bool} {R : DB -> DB -> Prop}.
Context `{FP : Footprint allowed R}.


Lemma flush_respects cs : forall d d',
  forallb allowed cs = true -> flush d cs = inl d' -> R d d'.
Proof.
  induction cs as [|c cs IH]; simpl; intros d d' Hall Hf.
  - inversion Hf; subst. apply R_refl.
  - apply andb_true_iff in Hall. destruct Hall as [Hc Hcs].
    destruct (apply_change d c) as [d1|e] eqn:E; [|discriminate].
    apply R_trans with d1; [eapply R_change; eassumption | eauto].
Qed.

Lemma respects_ret {A} (a : A) : respects allowed R (ret a).
Proof. intros w H. simpl. split; [exact H | apply R_refl]. Qed.

Lemma respects_raise {A} e : respects allowed R (@raise A e).
Proof. intros w H. simpl. split; [exact H | apply R_refl]. Qed.

Lemma respects_bind {A B} (m : M A) (k : A -> M B) :
  respects allowed R m -> (forall a, respects allowed R (k a)) -> respects allowed R (bind m k).
Proof.
  intros Hm Hk w H. unfold bind. specialize (Hm w H).
  destruct (m w) as [[a|e] w1]; simpl in *.
  - destruct Hm as [Hp HR]. specialize (Hk a w1 Hp).
    destruct Hk as [Hp' HR']. split; [exact Hp' | eapply R_trans; eassumption].
  - exact Hm.
Qed.

Lemma respects_try_except (body handler : M unit) :
  respects allowed R body -> respects allowed R handler ->
  respects allowed R (try_except_IntegrityError body handler).
Proof.
  intros Hb Hh w H. unfold try_except_IntegrityError. specialize (Hb w H).
  destruct (body w) as [[a|e] w1]; simpl in *; [exact Hb|].
  destruct e; try exact Hb.
  destruct Hb as [Hp HR]. specialize (Hh w1 Hp). destruct Hh as [Hp' HR'].
  split; [exact Hp' | eapply R_trans; eassumption].
Qed.

Lemma respects_flash m : respects allowed R (flash m).
Proof. intros w H. simpl. split; [exact H | apply R_refl]. Qed.

Lemma respects_query_all {A} (table : DB -> list A) : respects allowed R (query_all table).
Proof. intros w H. simpl. split; [exact H | apply R_refl]. Qed.

Lemma respects_session_get {A} (table : DB -> list A) key i :
  respects allowed R (session_get table key i).
Proof. intros w H. simpl. split; [exact H | apply R_refl]. Qed.

Lemma respects_new_id {A} (table : DB -> list A) key :
  respects allowed R (new_id table key).
Proof. intros w H. simpl. split; [exact H | apply R_refl]. Qed.

Lemma respects_filter_by_name_first n : respects allowed R (filter_by_name_first n).
Proof. intros w H. simpl. split; [exact H | apply R_refl]. Qed.

Lemma respects_parent_category t : respects allowed R (parent_category t).
Proof. intros w H. simpl. split; [exact H | apply R_refl]. Qed.

Lemma respects_getattr {A} (x : option A) a : respects allowed R (getattr x a).
Proof. destruct x; [apply respects_ret | apply respects_raise]. Qed.

Lemma respects_subtasks x : respects allowed R (subtasks x).
Proof. destruct x; apply respects_raise. Qed.

Lemma respects_session_add c : allowed c = true -> respects allowed R (session_add c).
Proof.
  intros Hc w H. simpl. split; [|apply R_refl].
  rewrite forallb_app, H. simpl. rewrite Hc. reflexivity.
Qed.

Lemma respects_session_delete {A} (x : option A) del :
  (forall a, allowed (del a) = true) -> respects allowed R (session_delete x del).
Proof.
  intros Hd. destruct x; [apply respects_session_add, Hd | apply respects_raise].
Qed.

Lemma respects_commit : respects allowed R commit.
Proof.
  intros w H. unfold commit.
  destruct (flush (db w) (pending w)) as [d'|e] eqn:E; simpl.
  - split; [reflexivity | eapply flush_respects; eassumption].
  - split; [reflexivity | apply R_refl].
Qed.

Lemma respects_for_each {A} (l : list A) body :
  (forall a, respects allowed R (body a)) -> respects allowed R (for_each l body).
Proof.
  intros Hb. induction l as [|a l IH]; simpl.
  - apply respects_ret.
  - apply respects_bind; [apply Hb | intros _; exact IH].
Qed.

(** The request starts with an empty session, so the committed
    database it leaves is related to the one it found. *)
Lemma respects_serve (view : M response) s :
  respects allowed R view -> R s (store (serve view s)).
Proof.
  intros Hv. specialize (Hv (mkWorld s [] []) eq_refl).
  unfold serve. destruct (view (mkWorld s [] [])) as [[r|e] w]; simpl in *.
  - apply Hv.
  - destruct e; apply Hv.
Qed.
End Footprint.

(** Discharges [respects] for a view by following its text. *)
Ltac footprint :=
  repeat first
    [ apply respects_ret | apply respects_raise | apply respects_flash
    | apply respects_query_all | apply respects_session_get
    | apply respects_new_id | apply respects_filter_by_name_first
    | apply respects_parent_category | apply respects_getattr
    | apply respects_subtasks | apply respects_commit
    | apply respects_bind; [|intro]
    | apply respects_try_except
    | apply respects_for_each; intro
    | apply respects_session_add; reflexivity
    | apply respects_session_delete; intro; reflexivity
    | match goal with
      | |- respects _ _ (match ?x with _ => _ end) => destruct x
      end ].

(** *** The archive only grows, except under clear_got_done *)

#[local] Instance archive_footprint : Footprint keeps_archive archive_grows.
Proof.
  split.
  - intros d. exists []. symmetry. apply app_nil_r.
  - intros a b c [l1 H1] [l2 H2]. exists (l1 ++ l2).
    rewrite H2, H1, app_assoc. reflexivity.
  - intros d c d' Hc H. destruct c; simpl in *; try discriminate;
      repeat match type of H with
             | (if ?b then _ else _) = _ => destruct b
             end;
      try discriminate; inversion H; subst; simpl;
      solve [ exists []; symmetry; apply app_nil_r | eexists; reflexivity ].
Qed.

Lemma view_archive_grows (c : call) (rq : Request) :
  clears_archive c = false ->
  respects keeps_archive archive_grows (view_function c rq).
Proof.
  intros Hc. destruct c; try discriminate; simpl;
    unfold dashboard, add_new_category, show_category, all_categories,
      all_to_dos, add_new_to_do, show_to_do, update_to_do, delete,
      update_category, mark_done, got_done, delete_to_do, clear_categories,
      UpdateCategoryForm;
    footprint.
Qed.

Lemma step_archive_grows s c :
  clears_archive (fst c) = false -> archive_grows s (step s c).
Proof.
  intros Hc. unfold step.
  apply (respects_serve (allowed := keeps_archive)).
  apply view_archive_grows. exact Hc.
Qed.

Lemma run_archive_grows l : forall s,
  forallb (fun c => negb (clears_archive (fst c))) l = true ->
  archive_grows s (run s l).
Proof.
  induction l as [|c l IH]; simpl; intros s H.
  - apply (@R_refl _ _ archive_footprint).
  - apply andb_true_iff in H. destruct H as [Hc Hl].
    apply negb_true_iff in Hc.
    eapply (@R_trans _ _ archive_footprint);
      [apply step_archive_grows; exact Hc | apply IH; exact Hl].
Qed.

Lemma archive_grows_In d d' g :
  archive_grows d d' -> In g (got_dones d) -> In g (got_dones d').
Proof. intros [l H] Hin. rewrite H. apply in_or_app. left. exact Hin. Qed.

(** *** Renaming and deleting categories leaves the archive as it is *)

#[local] Instance untouched_footprint : Footprint leaves_archive same_archive.
Proof.
  unfold same_archive. split.
  - reflexivity.
  - intros a b c H1 H2. congruence.
  - intros d c d' Hc H. destruct c; simpl in *; try discriminate;
      repeat match type of H with
             | (if ?b then _ else _) = _ => destruct b
             end;
      try discriminate; inversion H; subst; reflexivity.
Qed.

Lemma step_changes_categories s c :
  changes_categories (fst c) = true -> got_dones (step s c) = got_dones s.
Proof.
  intros Hc. unfold step.
  apply (respects_serve (allowed := leaves_archive) (R := same_archive)).
  destruct c as [[] rq]; try discriminate; simpl;
    unfold update_category, clear_categories, UpdateCategoryForm; footprint.
Qed.

Lemma run_changes_categories l : forall s,
  forallb (fun c => changes_categories (fst c)) l = true ->
  got_dones (run s l) = got_dones s.
Proof.
  induction l as [|c l IH]; simpl; intros s H; [reflexivity|].
  apply andb_true_iff in H. destruct H as [Hc Hl].
  rewrite (IH _ Hl). apply step_changes_categories. exact Hc.
Qed.

(** ** mark_done *)

Lemma mark_done_found s rq i t :
  lookup ToDos.id i (to_dos s) = Some t ->
  serve (mark_done i rq) s =
  mkOutcome (mkDB (categories s) (without_to_do i (to_dos s))
                  (got_dones s ++ [new_got_done s t (today rq)])
                  (map (orphan_user i) (users s)))
            [] (redirect "dashboard" [("to_do_id", v_int i)]).
Proof.
  intros H. destruct (lookup_Some _ _ _ _ H) as [Hid _].
  unfold serve, mark_done, bind, session_get, getattr, parent_category,
    session_delete, session_add, commit, ret. simpl.
  rewrite H. simpl. rewrite Hid. reflexivity.
Qed.

Lemma mark_done_absent s rq i :
  lookup ToDos.id i (to_dos s) = None ->
  serve (mark_done i rq) s =
  mkOutcome s [] (InternalServerError (AttributeError "NoneType" "name")).
Proof.
  intros H. unfold serve, mark_done, bind, session_get, getattr, raise. simpl.
  rewrite H. reflexivity.
Qed.

Lemma update_to_do_absent s rq i :
  lookup ToDos.id i (to_dos s) = None ->
  serve (update_to_do i rq) s =
  mkOutcome s [] (InternalServerError (AttributeError "NoneType" "name")).
Proof.
  intros H. unfold serve, update_to_do, bind, session_get, query_all, getattr,
    raise. simpl.
  rewrite H. reflexivity.
Qed.

(** C1.  For every to-do id [i] that [db.session.get] finds, one request
    to mark_done leaves got_dones extended by exactly one row holding
    the to-do's name, [str] of its current category and today's date,
    leaves to_dos without the row of key [i], and leaves categories as
    they were.  Both changes reach the database in the view's single
    commit: for any id, found or not, the request leaves either the
    database it found or the one with both changes. *)
Theorem mark_done_atomic (s : DB) (rq : Request) (i : Z) :
  let o := serve (mark_done i rq) s in
  (forall t, lookup ToDos.id i (to_dos s) = Some t ->
     got_dones (store o)
     = got_dones s
       ++ [GotDones.mk (next_id (map GotDones.id (got_dones s)))
                       (ToDos.name t) (str (related_category s t))
                       (Some (today rq))]
     /\ to_dos (store o) = without_to_do i (to_dos s)
     /\ lookup ToDos.id i (to_dos (store o)) = None
     /\ categories (store o) = categories s)
  /\ (store o = s
      \/ exists t,
           lookup ToDos.id i (to_dos s) = Some t
           /\ got_dones (store o) = got_dones s ++ [new_got_done s t (today rq)]
           /\ to_dos (store o) = without_to_do i (to_dos s)).
Proof.
  simpl. split.
  - intros t H. rewrite (mark_done_found s rq i t H). simpl.
    repeat split. apply lookup_without.
  - destruct (lookup ToDos.id i (to_dos s)) as [t|] eqn:H.
    + right. exists t. rewrite (mark_done_found s rq i t H). simpl. auto.
    + left. rewrite (mark_done_absent s rq i H). reflexivity.
Qed.

Lemma mark_done_atomic_witness :
  lookup ToDos.id 1 (to_dos work_db)
  = Some (ToDos.mk 1 "report" (Some 1) (Some 739010))
  /\ got_dones (store (serve (mark_done 1 anonymous) work_db))
     = [GotDones.mk 1 "report" "Work" (Some 739000)]
  /\ to_dos (store (serve (mark_done 1 anonymous) work_db))
     = [ToDos.mk 2 "errand" None (Some 739002)].
Proof.
  split; [reflexivity|].
  destruct (proj1 (mark_done_atomic work_db anonymous 1) _ eq_refl)
    as [Hg [Ht _]].
  split; [exact Hg | exact Ht].
Defined.

(** C10.  For a to-do whose parent_id is NULL, mark_done archives the
    text "None" as the category: [str] of Python's [None]. *)
Theorem mark_done_without_category (s : DB) (rq : Request) (i : Z) (t : ToDos.t) :
  lookup ToDos.id i (to_dos s) = Some t ->
  ToDos.parent_id t = None ->
  exists g,
    got_dones (store (serve (mark_done i rq) s)) = got_dones s ++ [g]
    /\ GotDones.name g = ToDos.name t
    /\ GotDones.category g = "None".
Proof.
  intros H Hp. exists (new_got_done s t (today rq)).
  rewrite (mark_done_found s rq i t H). simpl.
  unfold related_category. rewrite Hp. repeat split.
Qed.

Lemma mark_done_without_category_witness :
  exists g,
    got_dones (store (serve (mark_done 2 anonymous) work_db)) = [g]
    /\ GotDones.name g = "errand"
    /\ GotDones.category g = "None".
Proof.
  exact (mark_done_without_category work_db anonymous 2
           (ToDos.mk 2 "errand" None (Some 739002)) eq_refl eq_refl).
Defined.

(** C4.  The row archived for a to-do whose category is named [c]
    carries the text [c], and it is still in got_dones, field for
    field, after any later run of update_category and clear_categories
    requests: the archive as a whole is what mark_done left. *)
Theorem archived_category_survives (s : DB) (rq : Request) (i : Z)
    (t : ToDos.t) (c : Categories.t) (later : list (call * Request)) :
  lookup ToDos.id i (to_dos s) = Some t ->
  related_category s t = Some c ->
  forallb (fun x => changes_categories (fst x)) later = true ->
  let s1 := store (serve (mark_done i rq) s) in
  let g := GotDones.mk (next_id (map GotDones.id (got_dones s)))
                       (ToDos.name t) (Categories.name c) (Some (today rq)) in
  In g (got_dones s1)
  /\ got_dones (run s1 later) = got_dones s1
  /\ In g (got_dones (run s1 later)).
Proof.
  intros H Hc Hl. simpl.
  assert (Hin : In (GotDones.mk (next_id (map GotDones.id (got_dones s)))
                      (ToDos.name t) (Categories.name c) (Some (today rq)))
                   (got_dones (store (serve (mark_done i rq) s)))).
  { rewrite (mark_done_found s rq i t H). simpl.
    apply in_or_app. right. left.
    unfold new_got_done. rewrite Hc. reflexivity. }
  split; [exact Hin|].
  rewrite (run_changes_categories later _ Hl).
  split; [reflexivity | exact Hin].
Qed.

Lemma archived_category_survives_witness :
  let later := [(Update_category 1, submit (Some "Office") None None);
                (Clear_categories, anonymous)] in
  let s1 := store (serve (mark_done 1 anonymous) work_db) in
  categories (step s1 (Update_category 1, submit (Some "Office") None None))
  = [Categories.mk 1 "Office"]
  /\ categories (run s1 later) = []
  /\ got_dones (run s1 later) = [GotDones.mk 1 "report" "Work" (Some 739000)].
Proof.
  split; [reflexivity|]. split; [reflexivity|].
  destruct (archived_category_survives work_db anonymous 1
              (ToDos.mk 1 "report" (Some 1) (Some 739010))
              (Categories.mk 1 "Work")
              [(Update_category 1, submit (Some "Office") None None);
               (Clear_categories, anonymous)]
              eq_refl eq_refl eq_refl) as [_ [Heq _]].
  exact Heq.
Defined.

(** C5.  After a request to mark_done for [i] no row of to_dos has the
    key [i].  For every id that no row of to_dos has, whether the to-do
    was completed or never existed, a request to update_to_do or
    mark_done changes nothing in the database; but it does not answer
    404: the view reads [.name] on the [None] that [db.session.get]
    returned, and the AttributeError becomes the 500 answer. *)
Theorem completed_task_request_fails (s : DB) (rq rq' : Request) (i : Z) :
  lookup ToDos.id i (to_dos (store (serve (mark_done i rq) s))) = None
  /\ forall s',
       lookup ToDos.id i (to_dos s') = None ->
       serve (update_to_do i rq') s'
       = mkOutcome s' [] (InternalServerError (AttributeError "NoneType" "name"))
       /\ serve (mark_done i rq') s'
          = mkOutcome s' []
              (InternalServerError (AttributeError "NoneType" "name"))
       /\ answer (serve (update_to_do i rq') s') <> NotFound
       /\ answer (serve (mark_done i rq') s') <> NotFound.
Proof.
  split.
  - destruct (lookup ToDos.id i (to_dos s)) as [t|] eqn:H.
    + rewrite (mark_done_found s rq i t H). simpl. apply lookup_without.
    + rewrite (mark_done_absent s rq i H). exact H.
  - intros s' Hnone.
    rewrite (update_to_do_absent s' rq' i Hnone).
    rewrite (mark_done_absent s' rq' i Hnone).
    simpl. repeat split; discriminate.
Qed.

Lemma completed_task_request_fails_witness :
  let s1 := store (serve (mark_done 1 anonymous) work_db) in
  to_dos s1 = [ToDos.mk 2 "errand" None (Some 739002)]
  /\ answer (serve (update_to_do 1 (submit (Some "again") (Some "Work")
                                           (Some (Some 739020)))) s1)
     = InternalServerError (AttributeError "NoneType" "name")
  /\ store (serve (mark_done 1 anonymous) s1) = s1.
Proof.
  destruct (completed_task_request_fails work_db anonymous
              (submit (Some "again") (Some "Work") (Some (Some 739020))) 1)
    as [Hnone Hfail].
  destruct (Hfail _ Hnone) as [Hu _].
  destruct (completed_task_request_fails work_db anonymous anonymous 1)
    as [_ Hfail'].
  destruct (Hfail' _ Hnone) as [_ [Hm _]].
  split; [reflexivity|].
  split; [exact (f_equal answer Hu) | exact (f_equal store Hm)].
Defined.

(** ** The login session *)

(** Of all the views only dashboard reads [current_user]: the outcome of
    every other view is the same with and without a session. *)
Lemma views_ignore_session (c : call) (rq : Request) (b : bool) (s : DB) :
  c <> Dashboard ->
  serve (view_function c (with_session b rq)) s
  = serve (view_function c rq) s.
Proof.
  intros Hc. destruct c; try contradiction; reflexivity.
Qed.

Lemma dashboard_without_session (rq : Request) (s : DB) :
  is_authenticated rq = false ->
  serve (dashboard rq) s
  = mkOutcome s ["You need to login or register to comment."]
              (redirect "login" []).
Proof.
  intros H. unfold serve, dashboard. rewrite H. reflexivity.
Qed.

(** C2.  A visitor without a session asks for /mark-done/1: dashboard,
    asked by the same visitor, redirects to login and changes nothing,
    but mark_done archives the to-do, deletes it and redirects to the
    dashboard. *)
Theorem mark_done_without_session :
  is_authenticated anonymous = false
  /\ serve (dashboard anonymous) work_db
     = mkOutcome work_db ["You need to login or register to comment."]
                 (redirect "login" [])
  /\ serve (mark_done 1 anonymous) work_db
     = mkOutcome
         (mkDB [Categories.mk 1 "Work"]
               [ToDos.mk 2 "errand" None (Some 739002)]
               [GotDones.mk 1 "report" "Work" (Some 739000)] [])
         [] (redirect "dashboard" [("to_do_id", v_int 1)])
  /\ serve (add_new_category
              (with_session false (submit (Some "Home") None None))) work_db
     = mkOutcome
         (mkDB [Categories.mk 1 "Work"; Categories.mk 2 "Home"]
               (to_dos work_db) [] [])
         [] (redirect "show_category" [("category", v_str "Home")]).
Proof. repeat split. Qed.

(** ** delete and delete_to_do *)

Lemma delete_to_do_found s rq i t :
  lookup ToDos.id i (to_dos s) = Some t ->
  serve (delete_to_do i rq) s =
  mkOutcome (mkDB (categories s) (without_to_do i (to_dos s)) (got_dones s)
                  (map (orphan_user i) (users s)))
            [] (redirect "dashboard" []).
Proof.
  intros H. destruct (lookup_Some _ _ _ _ H) as [Hid _].
  unfold serve, delete_to_do, bind, session_get, session_delete, session_add,
    commit, ret. simpl.
  rewrite H. simpl. rewrite Hid. reflexivity.
Qed.

Lemma delete_to_do_absent s rq i :
  lookup ToDos.id i (to_dos s) = None ->
  serve (delete_to_do i rq) s
  = mkOutcome s [] (InternalServerError UnmappedInstanceError).
Proof.
  intros H. unfold serve, delete_to_do, bind, session_get, session_delete,
    raise. simpl.
  rewrite H. reflexivity.
Qed.

(** C8.  The view delete never reaches its [db.session.delete]: it
    reads [requested_to_do.subtasks] first, which no to-do has, so for
    every id the database is left as found and the answer is the 500 of
    an AttributeError, on a to-do that exists as on one that does not. *)
Theorem delete_never_deletes (s : DB) (rq : Request) (i : Z) :
  serve (delete i rq) s
  = mkOutcome s []
      (InternalServerError
         (AttributeError
            match lookup ToDos.id i (to_dos s) with
            | Some _ => "ToDos"
            | None => "NoneType"
            end "subtasks")).
Proof.
  unfold serve, delete, bind, session_get, subtasks, raise. simpl.
  destruct (lookup ToDos.id i (to_dos s)); reflexivity.
Qed.

(** ** add_new_category and update_category *)

Lemma filter_all {A} (p : A -> bool) l :
  (forall a, In a l -> p a = true) -> filter p l = l.
Proof.
  induction l as [|a l IH]; simpl; intros H; [reflexivity|].
  rewrite (H a (or_introl eq_refl)). f_equal. apply IH.
  intros b Hb. apply H. right. exact Hb.
Qed.

Lemma filter_none {A} (p : A -> bool) l :
  (forall a, In a l -> p a = false) -> filter p l = [].
Proof.
  induction l as [|a l IH]; simpl; intros H; [reflexivity|].
  rewrite (H a (or_introl eq_refl)). apply IH.
  intros b Hb. apply H. right. exact Hb.
Qed.

Lemma rename_row_other i n l :
  (forall c, In c l -> Categories.id c <> i) -> map (rename_row i n) l = l.
Proof.
  induction l as [|c l IH]; simpl; intros H; [reflexivity|].
  unfold rename_row at 1.
  destruct (Z.eqb_spec (Categories.id c) i) as [E|E].
  - exfalso. apply (H c); [left; reflexivity | exact E].
  - f_equal. apply IH. intros b Hb. apply H. right. exact Hb.
Qed.

Lemma rename_row_self i n x :
  rename_row i n (Categories.mk i x) = Categories.mk i n.
Proof. unfold rename_row. simpl. rewrite Z.eqb_refl. reflexivity. Qed.

Lemma add_new_category_taken s rq n :
  CategoryForm rq = Valid n ->
  name_taken n (categories s) = true ->
  serve (add_new_category rq) s
  = mkOutcome s ["This Category already exists!"]
              (redirect "show_category" [("category", v_str n)]).
Proof.
  intros Hf Ht.
  unfold serve, add_new_category. rewrite Hf.
  unfold bind, try_except_IntegrityError, session_add, commit, flash, ret.
  simpl. rewrite Ht. reflexivity.
Qed.

Lemma add_new_category_fresh s rq n :
  CategoryForm rq = Valid n ->
  name_taken n (categories s) = false ->
  serve (add_new_category rq) s
  = mkOutcome
      (mkDB (categories s
               ++ [Categories.mk (next_id (map Categories.id (categories s))) n])
            (to_dos s) (got_dones s) (users s))
      [] (redirect "show_category" [("category", v_str n)]).
Proof.
  intros Hf Ht.
  unfold serve, add_new_category. rewrite Hf.
  unfold bind, try_except_IntegrityError, session_add, commit, flash, ret.
  simpl. rewrite Ht. reflexivity.
Qed.

Lemma update_category_found s rq i c n :
  UpdateCategoryForm rq = Valid n ->
  lookup Categories.id i (categories s) = Some c ->
  name_taken n (filter (fun c => negb (Categories.id c =? i)) (categories s))
  = false ->
  serve (update_category i rq) s
  = mkOutcome
      (mkDB (map (rename_row i n) (categories s))
            (to_dos s) (got_dones s) (users s))
      [] (redirect "show_category" [("category", v_str n)]).
Proof.
  intros Hf Hl Ht. destruct (lookup_Some _ _ _ _ Hl) as [Hid _].
  unfold serve, update_category. rewrite Hf.
  unfold bind, session_get, getattr, session_add, commit, ret. simpl.
  rewrite Hl. simpl. rewrite Hid, Ht. reflexivity.
Qed.

(** C3.  In a database that obeys the UNIQUE constraint on
    categories.name and holds a category named [n], a submitted, valid
    CategoryForm carrying [n] leaves the database exactly as it was,
    flashes "This Category already exists!", and so leaves exactly one
    row named [n]. *)
Theorem add_new_category_duplicate (s : DB) (rq : Request) (n : string) :
  NoDup (map Categories.name (categories s)) ->
  CategoryForm rq = Valid n ->
  In n (map Categories.name (categories s)) ->
  let o := serve (add_new_category rq) s in
  store o = s
  /\ flashed o = ["This Category already exists!"]
  /\ count_rows n (categories (store o)) = 1%nat.
Proof.
  intros Hnd Hf Hin. simpl.
  rewrite (add_new_category_taken s rq n Hf (proj2 (name_taken_In n _) Hin)).
  simpl. repeat split. apply count_rows_unique; assumption.
Qed.

Lemma add_new_category_duplicate_witness :
  let o := serve (add_new_category (submit (Some "Work") None None)) work_db in
  store o = work_db
  /\ flashed o = ["This Category already exists!"]
  /\ count_rows "Work" (categories (store o)) = 1%nat.
Proof.
  apply (add_new_category_duplicate work_db (submit (Some "Work") None None)
           "Work").
  - simpl. constructor; [simpl; tauto | constructor].
  - reflexivity.
  - simpl. left. reflexivity.
Defined.

(** C9.  From a database with no category named [x] or [y] (two
    different names), a valid CategoryForm carrying [x] followed by a
    valid UpdateCategoryForm carrying [y] for the id the new row
    received leaves the earlier rows followed by one new row named [y]:
    all_categories lists exactly one row named [y] and none named
    [x]. *)
Theorem create_then_rename (s : DB) (rq1 rq2 rq3 : Request) (x y : string) :
  CategoryForm rq1 = Valid x ->
  UpdateCategoryForm rq2 = Valid y ->
  ~ In x (map Categories.name (categories s)) ->
  ~ In y (map Categories.name (categories s)) ->
  x <> y ->
  let i := next_id (map Categories.id (categories s)) in
  let s1 := store (serve (add_new_category rq1) s) in
  let s2 := store (serve (update_category i rq2) s1) in
  lookup Categories.id i (categories s1) = Some (Categories.mk i x)
  /\ categories s2 = categories s ++ [Categories.mk i y]
  /\ answer (serve (all_categories rq3) s2)
     = render_template "all-categories.html"
         [("categories", t_categories (categories s ++ [Categories.mk i y]))]
  /\ count_rows y (categories s2) = 1%nat
  /\ count_rows x (categories s2) = 0%nat.
Proof.
  intros Hf1 Hf2 Hx Hy Hxy. simpl.
  set (i := next_id (map Categories.id (categories s))).
  assert (Hfresh : forall c, In c (categories s) -> Categories.id c <> i).
  { intros c Hc. apply next_id_fresh. exact Hc. }
  rewrite (add_new_category_fresh s rq1 x Hf1 (name_taken_false _ _ Hx)).
  simpl. fold i.
  assert (Hl : lookup Categories.id i (categories s ++ [Categories.mk i x])
               = Some (Categories.mk i x)).
  { apply lookup_last; [exact Hfresh | reflexivity]. }
  split; [exact Hl|].
  assert (Hfilter :
            filter (fun c => negb (Categories.id c =? i))
                   (categories s ++ [Categories.mk i x]) = categories s).
  { rewrite filter_app. simpl. rewrite Z.eqb_refl. simpl. rewrite app_nil_r.
    apply filter_all. intros c Hc. apply negb_true_iff, Z.eqb_neq.
    apply Hfresh. exact Hc. }
  rewrite (update_category_found
             (mkDB (categories s ++ [Categories.mk i x]) (to_dos s)
                   (got_dones s) (users s))
             rq2 i (Categories.mk i x) y Hf2 Hl).
  2: { simpl. rewrite Hfilter. apply name_taken_false. exact Hy. }
  simpl. rewrite map_app. simpl.
  rewrite rename_row_self, (rename_row_other i y _ Hfresh).
  split; [reflexivity|]. split; [reflexivity|].
  rewrite !count_rows_app.
  rewrite (count_rows_absent y _ Hy), (count_rows_absent x _ Hx).
  unfold count_rows. simpl. rewrite String.eqb_refl.
  destruct (String.eqb_spec y x) as [E|E]; [congruence|]. split; reflexivity.
Qed.

Lemma create_then_rename_witness :
  let s1 := store (serve (add_new_category (submit (Some "X") None None))
                         work_db) in
  let s2 := store (serve (update_category 2 (submit (Some "Y") None None)) s1) in
  categories s2 = [Categories.mk 1 "Work"; Categories.mk 2 "Y"]
  /\ count_rows "Y" (categories s2) = 1%nat
  /\ count_rows "X" (categories s2) = 0%nat.
Proof.
  destruct (create_then_rename work_db (submit (Some "X") None None)
              (submit (Some "Y") None None) anonymous "X" "Y"
              eq_refl eq_refl) as [_ [Hc [_ [Hy Hx]]]].
  - simpl. intros [H|[]]. discriminate.
  - simpl. intros [H|[]]. discriminate.
  - discriminate.
  - split; [exact Hc | split; [exact Hy | exact Hx]].
Defined.

(** ** add_new_to_do and date_check *)

Lemma date_check_spec (now_date d : date) :
  (d < now_date -> date_check now_date d = Some "Due Date can't be in the past!")
  /\ (now_date <= d -> date_check now_date d = None).
Proof.
  unfold date_check. destruct (Z.ltb_spec d now_date); split; intros; auto; lia.
Qed.

Lemma add_new_to_do_invalid s rq errors :
  ToDoForm rq (categories s) None None None = Invalid errors ->
  serve (add_new_to_do rq) s
  = mkOutcome s [] (render_template "add-new-to-do.html"
                      [("form", t_form errors)]).
Proof.
  intros H. unfold serve, add_new_to_do, bind, query_all. simpl.
  rewrite H. reflexivity.
Qed.

Lemma add_new_to_do_valid s rq n cn d c :
  ToDoForm rq (categories s) None None None = Valid (n, cn, d) ->
  find (fun c => String.eqb (Categories.name c) cn) (categories s) = Some c ->
  serve (add_new_to_do rq) s
  = mkOutcome
      (mkDB (categories s)
            (to_dos s
               ++ [ToDos.mk (next_id (map ToDos.id (to_dos s))) n
                            (Some (Categories.id c)) (Some d)])
            (got_dones s) (users s))
      [] (redirect "show_to_do"
            [("to_do_id", v_int (next_id (map ToDos.id (to_dos s))))]).
Proof.
  intros H Hc. unfold serve, add_new_to_do, bind, query_all. simpl.
  rewrite H. unfold filter_by_name_first, new_id, session_add, commit, ret.
  simpl. rewrite Hc. reflexivity.
Qed.

(** C6.  For a submitted ToDoForm whose due date parses to [d]:
    if [d] is before today, date_check raises its ValidationError, the
    view renders the form again with that message on due_date, and the
    database is left as found; if [d] is today or later, date_check
    passes, and with a valid token, a name that is not blank and the
    name of one of the listed categories the to-do is appended to
    to_dos with that name, category and date. *)
Theorem add_new_to_do_due_date (s : DB) (rq : Request) (d : date) :
  is_submitted rq = true ->
  form_due_date rq = Some (Some d) ->
  let o := serve (add_new_to_do rq) s in
  (d < today rq ->
     date_check (today rq) d = Some "Due Date can't be in the past!"
     /\ store o = s
     /\ exists errors,
          answer o = render_template "add-new-to-do.html"
                       [("form", t_form errors)]
          /\ In ("due_date", "Due Date can't be in the past!") errors)
  /\ (today rq <= d ->
        date_check (today rq) d = None
        /\ forall n cn c,
             csrf_token_valid rq = true ->
             form_name rq = Some n -> strip_nonempty n = true ->
             form_category rq = Some cn -> strip_nonempty cn = true ->
             find (fun c => String.eqb (Categories.name c) cn) (categories s)
             = Some c ->
             store o
             = mkDB (categories s)
                    (to_dos s
                       ++ [ToDos.mk (next_id (map ToDos.id (to_dos s))) n
                                    (Some (Categories.id c)) (Some d)])
                    (got_dones s) (users s)
             /\ answer o
                = redirect "show_to_do"
                    [("to_do_id", v_int (next_id (map ToDos.id (to_dos s))))]).
Proof.
  intros Hs Hd. simpl. split.
  - intros Hlt. pose proof (proj1 (date_check_spec (today rq) d) Hlt) as Hdc.
    split; [exact Hdc|].
    assert (Hform : exists errors,
               ToDoForm rq (categories s) None None None = Invalid errors
               /\ In ("due_date", "Due Date can't be in the past!") errors).
    { unfold ToDoForm, ToDoForm_data_due_date, validate_due_date.
      rewrite Hs, Hd, Hdc.
      destruct (csrf_token_valid rq);
        destruct (DataRequired (ToDoForm_data_name rq None));
        destruct (validate_category (categories s)
                    (ToDoForm_data_category rq None));
        eexists; (split; [reflexivity|]);
        apply in_or_app; right; apply in_or_app; right;
        apply in_or_app; left; left; reflexivity. }
    destruct Hform as [errors [Hf Hin]].
    rewrite (add_new_to_do_invalid s rq errors Hf). simpl.
    split; [reflexivity|]. exists errors. split; [reflexivity | exact Hin].
  - intros Hle. pose proof (proj2 (date_check_spec (today rq) d) Hle) as Hdc.
    split; [exact Hdc|].
    intros n cn c Hcsrf Hn Hnb Hcn Hcnb Hc.
    assert (Hform : ToDoForm rq (categories s) None None None = Valid (n, cn, d)).
    { unfold ToDoForm, ToDoForm_data_due_date, validate_due_date,
        ToDoForm_data_name, ToDoForm_data_category, validate_category,
        DataRequired, process.
      rewrite Hs, Hd, Hdc, Hcsrf, Hn, Hcn, Hnb, Hcnb. simpl.
      assert (He : existsb (fun c0 => String.eqb (str (Some c0)) cn)
                           (categories s) = true).
      { apply existsb_exists. apply find_some in Hc. exists c. exact Hc. }
      simpl in He. rewrite He. reflexivity. }
    rewrite (add_new_to_do_valid s rq n cn d c Hform Hc). simpl.
    split; reflexivity.
Qed.

Lemma add_new_to_do_due_date_witness :
  let yesterday := submit (Some "call") (Some "Work") (Some (Some 738999)) in
  let same_day := submit (Some "call") (Some "Work") (Some (Some 739000)) in
  store (serve (add_new_to_do yesterday) work_db) = work_db
  /\ to_dos (store (serve (add_new_to_do same_day) work_db))
     = to_dos work_db ++ [ToDos.mk 3 "call" (Some 1) (Some 739000)].
Proof.
  split.
  - destruct (add_new_to_do_due_date work_db
                (submit (Some "call") (Some "Work") (Some (Some 738999)))
                738999 eq_refl eq_refl) as [Hpast _].
    destruct (Hpast eq_refl) as [_ [Hstore _]]. exact Hstore.
  - destruct (add_new_to_do_due_date work_db
                (submit (Some "call") (Some "Work") (Some (Some 739000)))
                739000 eq_refl eq_refl) as [_ Hok].
    destruct (Hok (fun H => match H with eq_refl => I end)) as [_ Hadd].
    destruct (Hadd "call" "Work" (Categories.mk 1 "Work")
                eq_refl eq_refl eq_refl eq_refl eq_refl eq_refl) as [Hstore _].
    exact (f_equal to_dos Hstore).
Defined.

(** ** clear_got_done *)

Lemma minus_ids_nil l : minus_ids [] l = l.
Proof. unfold minus_ids. apply filter_all. reflexivity. Qed.

Lemma minus_ids_cons a ids l :
  minus_ids ids (filter (fun g => negb (GotDones.id g =? a)) l)
  = minus_ids (a :: ids) l.
Proof.
  unfold minus_ids. induction l as [|g l IH]; simpl; [reflexivity|].
  destruct (GotDones.id g =? a); simpl; [exact IH|].
  destruct (existsb (Z.eqb (GotDones.id g)) ids); simpl;
    [exact IH | f_equal; exact IH].
Qed.

Lemma minus_ids_all l : minus_ids (map GotDones.id l) l = [].
Proof.
  unfold minus_ids. apply filter_none. intros g Hg.
  apply negb_false_iff, existsb_exists. exists (GotDones.id g).
  split; [apply in_map; exact Hg | apply Z.eqb_refl].
Qed.

(** The loop of clear_got_done, started with an empty session: one
    DELETE and one commit per row read before the loop. *)
Lemma clear_got_done_loop l : forall w,
  pending w = [] ->
  for_each l
    (fun data =>
       session_delete (Some data) (fun g => delete_GotDones (GotDones.id g)) ;;
       commit) w
  = (Ok tt,
     mkWorld (mkDB (categories (db w)) (to_dos (db w))
                   (minus_ids (map GotDones.id l) (got_dones (db w)))
                   (users (db w)))
             [] (flashes w)).
Proof.
  induction l as [|a l IH]; intros w Hp.
  - simpl. rewrite minus_ids_nil. unfold ret.
    destruct w as [[c t g u] p f]. simpl in *. subst p. reflexivity.
  - simpl for_each. unfold bind at 1.
    unfold bind at 1, session_delete, session_add, commit. simpl.
    rewrite Hp. simpl. rewrite IH by reflexivity. simpl.
    rewrite minus_ids_cons. reflexivity.
Qed.

Lemma clear_got_done_run s rq :
  serve (clear_got_done rq) s
  = mkOutcome (mkDB (categories s) (to_dos s) [] (users s)) []
              (redirect "got_done" []).
Proof.
  unfold serve, clear_got_done. unfold bind at 1, query_all. simpl.
  unfold bind at 1. rewrite clear_got_done_loop by reflexivity.
  simpl. rewrite minus_ids_all. reflexivity.
Qed.

(** C7, as the claim states it, fails on the answer: the view returns
    the same redirect to got_done after deleting one archived row and
    after deleting two, so nothing it returns is the number of rows it
    removed. *)
Lemma clear_got_done_returns_no_count :
  List.length (got_dones archive_of_one) = 1%nat
  /\ List.length (got_dones archive_of_two) = 2%nat
  /\ got_dones (store (serve (clear_got_done anonymous) archive_of_one)) = []
  /\ got_dones (store (serve (clear_got_done anonymous) archive_of_two)) = []
  /\ answer (serve (clear_got_done anonymous) archive_of_one)
     = redirect "got_done" []
  /\ answer (serve (clear_got_done anonymous) archive_of_two)
     = redirect "got_done" [].
Proof. repeat split. Qed.

(** C7, amended.  For every database, the request that "/clear-got-done"
    is routed to, clear_got_done, leaves got_dones empty and to_dos and
    categories exactly as found, and answers with a redirect to
    got_done that carries no count; got_done then renders an empty
    list. *)
Theorem clear_got_done_frame (s : DB) (rq rq' : Request) :
  let o := serve (clear_got_done rq) s in
  match_url "/clear-got-done" = Some Clear_got_done
  /\ got_dones (store o) = []
  /\ to_dos (store o) = to_dos s
  /\ categories (store o) = categories s
  /\ answer o = redirect "got_done" []
  /\ answer (serve (got_done rq') (store o))
     = render_template "got-done.html" [("all_got_dones", t_got_dones [])].
Proof.
  simpl. rewrite clear_got_done_run. simpl. repeat split.
Qed.

(** ** The constraints on categories hold in every reachable database

    The hypothesis of C3, that no two stored categories share a name,
    is the schema's UNIQUE constraint: every change a view can commit
    keeps it, together with the uniqueness of the primary key. *)

Lemma NoDup_snoc {A} (l : list A) x : NoDup l -> ~ In x l -> NoDup (l ++ [x]).
Proof.
  induction 1 as [|a l Ha Hl IH]; simpl; intros Hx.
  - constructor; [tauto | constructor].
  - constructor.
    + intros Hin. apply in_app_or in Hin. destruct Hin as [Hin|[E|[]]].
      * contradiction.
      * apply Hx. left. symmetry. exact E.
    + apply IH. intros Hin. apply Hx. right. exact Hin.
Qed.

Lemma NoDup_map_filter {A B} (f : A -> B) (p : A -> bool) l :
  NoDup (map f l) -> NoDup (map f (filter p l)).
Proof.
  induction l as [|a l IH]; simpl; intros H; [constructor|].
  inversion H as [|x xs Hx Hxs]; subst.
  destruct (p a); simpl; [|apply IH; exact Hxs].
  constructor; [|apply IH; exact Hxs].
  intros Hin. apply Hx. apply in_map_iff in Hin.
  destruct Hin as [b [E Hb]]. apply filter_In in Hb.
  rewrite <- E. apply in_map. apply Hb.
Qed.

Lemma rename_row_id i n l :
  map Categories.id (map (rename_row i n) l) = map Categories.id l.
Proof.
  rewrite map_map. apply map_ext. intros c. unfold rename_row.
  destruct (Categories.id c =? i); reflexivity.
Qed.

Lemma rename_row_names i n l x :
  In x (map Categories.name (map (rename_row i n) l)) ->
  x = n \/ In x (map Categories.name l).
Proof.
  induction l as [|c l IH]; simpl; [tauto|].
  unfold rename_row at 1. intros [E|Hin].
  - destruct (Categories.id c =? i); simpl in E; auto.
  - destruct (IH Hin); auto.
Qed.

Lemma rename_row_NoDup i n l :
  NoDup (map Categories.id l) -> NoDup (map Categories.name l) ->
  name_taken n (filter (fun c => negb (Categories.id c =? i)) l) = false ->
  NoDup (map Categories.name (map (rename_row i n) l)).
Proof.
  induction l as [|c l IH]; simpl; intros Hid Hname Hfree; [constructor|].
  inversion Hid as [|? ? Hc Hid']; subst.
  inversion Hname as [|? ? Hn Hname']; subst.
  unfold rename_row at 1.
  destruct (Z.eqb_spec (Categories.id c) i) as [E|E]; simpl in *.
  - assert (Hother : forall b, In b l -> Categories.id b <> i).
    { intros b Hb Hbi. apply Hc. rewrite E, <- Hbi. apply in_map. exact Hb. }
    rewrite rename_row_other by exact Hother.
    rewrite filter_all in Hfree.
    2: { intros b Hb. apply negb_true_iff, Z.eqb_neq, Hother, Hb. }
    constructor; [|exact Hname'].
    intros Hin. apply name_taken_In in Hin. congruence.
  - apply orb_false_iff in Hfree. destruct Hfree as [Hcn Hfree].
    apply String.eqb_neq in Hcn.
    constructor; [|apply IH; assumption].
    intros Hin. apply rename_row_names in Hin. destruct Hin as [Hin|Hin].
    + contradiction.
    + contradiction.
Qed.

#[local] Instance wf_footprint : Footprint any_change keeps_categories_wf.
Proof.
  unfold keeps_categories_wf, categories_wf. split.
  - auto.
  - auto.
  - intros d c d' _ H [Hid Hname]. destruct c; simpl in H;
      try (inversion H; subst; simpl; split; assumption).
    + destruct (name_taken name (categories d)) eqn:Ht; [discriminate|].
      inversion H; subst; simpl. rewrite !map_app. simpl. split.
      * apply NoDup_snoc; [exact Hid|]. intros Hin.
        apply next_id_above in Hin. lia.
      * apply NoDup_snoc; [exact Hname|]. intros Hin.
        apply name_taken_In in Hin. congruence.
    + destruct (name_taken name
                  (filter (fun c => negb (Categories.id c =? id)) (categories d)))
        eqn:Ht; [discriminate|].
      inversion H; subst; simpl. split.
      * rewrite rename_row_id. exact Hid.
      * apply rename_row_NoDup; assumption.
    + inversion H; subst; simpl. split; apply NoDup_map_filter; assumption.
Qed.

Lemma step_categories_wf s c : categories_wf s -> categories_wf (step s c).
Proof.
  unfold step.
  apply (respects_serve (allowed := any_change) (R := keeps_categories_wf)).
  destruct c as [[] rq]; simpl;
    unfold dashboard, add_new_category, show_category, all_categories,
      all_to_dos, add_new_to_do, show_to_do, update_to_do, delete,
      update_category, mark_done, got_done, clear_got_done, delete_to_do,
      clear_categories, UpdateCategoryForm;
    footprint.
Qed.

Lemma run_categories_wf l : forall s, categories_wf s -> categories_wf (run s l).
Proof.
  induction l as [|c l IH]; simpl; intros s H; [exact H|].
  apply IH. apply step_categories_wf. exact H.
Qed.

Lemma reachable_categories_wf l : categories_wf (run empty_db l).
Proof. apply run_categories_wf. split; constructor. Qed.

(** * Further properties of the views *)

(** ** The views that only read *)

#[local] Instance frozen_footprint : Footprint no_change eq.
Proof.
  split.
  - reflexivity.
  - intros a b c H1 H2. congruence.
  - intros d c d' Hc. discriminate.
Qed.

(** X1.  dashboard, show_category, all_categories, all_to_dos,
    show_to_do and got_done hand the session no change and never
    commit: whatever the request and whatever they answer, the database
    is the one they found. *)
Theorem reading_views_change_nothing (rq : Request) (s : DB) :
  store (serve (dashboard rq) s) = s
  /\ (forall category, store (serve (show_category category rq) s) = s)
  /\ store (serve (all_categories rq) s) = s
  /\ store (serve (all_to_dos rq) s) = s
  /\ (forall to_do_id, store (serve (show_to_do to_do_id rq) s) = s)
  /\ store (serve (got_done rq) s) = s.
Proof.
  repeat split; intros; symmetry;
    apply (respects_serve (allowed := no_change) (R := eq));
    unfold dashboard, show_category, all_categories, all_to_dos, show_to_do,
      got_done; footprint.
Qed.

(** ** delete_to_do *)

(** X2.  delete_to_do on an id that [db.session.get] finds removes that
    row and nothing else: every other to-do is still stored, and
    categories and the archive are as found (the to-do is not
    archived).  On an id it does not find, [db.session.delete(None)]
    raises UnmappedInstanceError: the answer is a 500 and the database
    is as found. *)
Theorem delete_to_do_removes_one (s : DB) (rq : Request) (i : Z) :
  let o := serve (delete_to_do i rq) s in
  (forall t, lookup ToDos.id i (to_dos s) = Some t ->
     to_dos (store o) = without_to_do i (to_dos s)
     /\ lookup ToDos.id i (to_dos (store o)) = None
     /\ (forall t', In t' (to_dos s) -> ToDos.id t' <> i ->
           In t' (to_dos (store o)))
     /\ got_dones (store o) = got_dones s
     /\ categories (store o) = categories s
     /\ answer o = redirect "dashboard" [])
  /\ (lookup ToDos.id i (to_dos s) = None ->
        o = mkOutcome s [] (InternalServerError UnmappedInstanceError)).
Proof.
  simpl. split.
  - intros t H. rewrite (delete_to_do_found s rq i t H). simpl.
    repeat split.
    + apply lookup_without.
    + intros t' Hin Hne. apply filter_In. split; [exact Hin|].
      apply negb_true_iff, Z.eqb_neq. exact Hne.
  - intros H. apply delete_to_do_absent. exact H.
Qed.

Lemma delete_to_do_removes_one_witness :
  to_dos (store (serve (delete_to_do 1 anonymous) members_db))
  = [ToDos.mk 2 "errand" None (Some 738990)]
  /\ serve (delete_to_do 7 anonymous) members_db
     = mkOutcome members_db [] (InternalServerError UnmappedInstanceError).
Proof.
  destruct (delete_to_do_removes_one members_db anonymous 1) as [Hfound _].
  destruct (Hfound _ eq_refl) as [Ht _].
  destruct (delete_to_do_removes_one members_db anonymous 7) as [_ Habsent].
  split; [exact Ht | exact (Habsent eq_refl)].
Defined.

(** ** update_to_do *)

Lemma ToDoForm_Valid_inv rq choices dn dc dd n cn d :
  ToDoForm rq choices dn dc dd = Valid (n, cn, d) ->
  is_submitted rq = true
  /\ csrf_token_valid rq = true
  /\ ToDoForm_data_name rq dn = Some n
  /\ strip_nonempty n = true
  /\ ToDoForm_data_category rq dc = Some cn
  /\ strip_nonempty cn = true
  /\ existsb (fun c => String.eqb (str (Some c)) cn) choices = true
  /\ ToDoForm_data_due_date rq dd = Some d
  /\ today rq <= d.
Proof.
  unfold ToDoForm, validate_category, validate_due_date, DataRequired,
    date_check.
  destruct (is_submitted rq); [|discriminate].
  destruct (csrf_token_valid rq); [|discriminate].
  destruct (ToDoForm_data_name rq dn) as [n'|]; [|discriminate].
  destruct (strip_nonempty n') eqn:Hn; [|discriminate].
  destruct (ToDoForm_data_category rq dc) as [cn'|]; [|discriminate].
  destruct (strip_nonempty cn') eqn:Hcn; [|discriminate].
  destruct (existsb _ choices) eqn:He; [|discriminate].
  destruct (ToDoForm_data_due_date rq dd) as [d'|]; [|discriminate].
  destruct (Z.ltb_spec d' (today rq)) as [Hlt|Hle]; [discriminate|].
  intros H. inversion H; subst. repeat split; auto.
Qed.

Lemma find_name_listed cn (l : list Categories.t) :
  existsb (fun c => String.eqb (str (Some c)) cn) l = true ->
  exists c, find (fun c => String.eqb (Categories.name c) cn) l = Some c
            /\ In c l /\ Categories.name c = cn.
Proof.
  intros H.
  destruct (find (fun c => String.eqb (Categories.name c) cn) l) as [c|] eqn:E.
  - exists c. apply find_some in E. destruct E as [Hin Hc].
    apply String.eqb_eq in Hc. auto.
  - apply existsb_exists in H. destruct H as [c [Hin Hc]].
    apply (find_none _ _ E) in Hin.
    unfold str, Categories.__repr__ in Hc. congruence.
Qed.

Lemma update_to_do_invalid s rq i t errors :
  lookup ToDos.id i (to_dos s) = Some t ->
  UpdateToDoForm rq (categories s) t (related_category s t) = Invalid errors ->
  serve (update_to_do i rq) s
  = mkOutcome s []
      (render_template "update-to-do.html"
         [("form", t_form errors); ("to_do", t_to_do (Some t))]).
Proof.
  intros H Hf.
  unfold serve, update_to_do, bind, session_get, query_all, getattr,
    parent_category, filter_by_name_first, ret. simpl.
  rewrite H. simpl. rewrite Hf. reflexivity.
Qed.

Lemma update_to_do_valid s rq i t n cn d c :
  lookup ToDos.id i (to_dos s) = Some t ->
  UpdateToDoForm rq (categories s) t (related_category s t) = Valid (n, cn, d) ->
  find (fun c => String.eqb (Categories.name c) cn) (categories s) = Some c ->
  serve (update_to_do i rq) s
  = mkOutcome
      (mkDB (categories s)
            (map (rewrite_row i n (Some (Categories.id c)) (Some d)) (to_dos s))
            (got_dones s) (users s))
      [] (InternalServerError (AttributeError "ToDos" "subtasks")).
Proof.
  intros H Hf Hc. destruct (lookup_Some _ _ _ _ H) as [Hid _].
  pose proof (ToDoForm_Valid_inv _ _ _ _ _ _ _ _ Hf) as Hinv.
  destruct Hinv as [_ [_ [_ [_ [Hcat _]]]]].
  unfold serve, update_to_do, bind, session_get, query_all, getattr,
    parent_category, filter_by_name_first, session_add, commit, subtasks,
    raise, ret. simpl.
  rewrite H. simpl. rewrite Hf. simpl in Hcat. rewrite Hcat, Hc. simpl.
  rewrite Hid. reflexivity.
Qed.

Lemma lookup_rewritten i n p d l t :
  lookup ToDos.id i l = Some t ->
  lookup ToDos.id i (map (rewrite_row i n p d) l) = Some (ToDos.mk i n p d).
Proof.
  unfold lookup. induction l as [|a l IH]; simpl; [discriminate|].
  destruct (Z.eqb_spec (ToDos.id a) i) as [E|E].
  - intros _. unfold rewrite_row. apply Z.eqb_eq in E. rewrite E. simpl.
    apply Z.eqb_eq in E. rewrite E, Z.eqb_refl. reflexivity.
  - intros H. unfold rewrite_row at 1 2. apply Z.eqb_neq in E. rewrite !E.
    apply IH. exact H.
Qed.

Lemma rewrite_row_id i n p d l :
  map ToDos.id (map (rewrite_row i n p d) l) = map ToDos.id l.
Proof.
  rewrite map_map. apply map_ext. intros t. unfold rewrite_row.
  destruct (ToDos.id t =? i); reflexivity.
Qed.

(** X3.  A valid UpdateToDoForm for a stored to-do is committed and
    then answered with a 500: after [db.session.commit()] the view reads
    [to_do_update.subtasks], which raises AttributeError.  The row of
    key [i] now carries the submitted name, the id of the chosen
    category and the submitted date; every other to-do is as it was. *)
Theorem update_to_do_commits_then_fails (s : DB) (rq : Request) (i : Z)
    (t : ToDos.t) (n cn : string) (d : date) :
  lookup ToDos.id i (to_dos s) = Some t ->
  UpdateToDoForm rq (categories s) t (related_category s t) = Valid (n, cn, d) ->
  let o := serve (update_to_do i rq) s in
  answer o = InternalServerError (AttributeError "ToDos" "subtasks")
  /\ exists c,
       In c (categories s) /\ Categories.name c = cn
       /\ lookup ToDos.id i (to_dos (store o))
          = Some (ToDos.mk i n (Some (Categories.id c)) (Some d))
       /\ (forall t', In t' (to_dos s) -> ToDos.id t' <> i ->
             In t' (to_dos (store o))).
Proof.
  intros H Hf. simpl.
  pose proof (ToDoForm_Valid_inv _ _ _ _ _ _ _ _ Hf) as Hinv.
  destruct Hinv as [_ [_ [_ [_ [_ [_ [He _]]]]]]].
  destruct (find_name_listed cn (categories s) He) as [c [Hc [Hin Hname]]].
  rewrite (update_to_do_valid s rq i t n cn d c H Hf Hc). simpl.
  split; [reflexivity|]. exists c. repeat split; auto.
  - apply lookup_rewritten with t. exact H.
  - intros t' Hin' Hne. apply in_map_iff. exists t'. split; [|exact Hin'].
    unfold rewrite_row. apply Z.eqb_neq in Hne. rewrite Hne. reflexivity.
Qed.

Lemma update_to_do_commits_then_fails_witness :
  let o := serve (update_to_do 1 (submit (Some "report v2") (Some "Home")
                                         (Some (Some 739020)))) members_db in
  answer o = InternalServerError (AttributeError "ToDos" "subtasks")
  /\ to_dos (store o)
     = [ToDos.mk 1 "report v2" (Some 2) (Some 739020);
        ToDos.mk 2 "errand" None (Some 738990)].
Proof.
  destruct (update_to_do_commits_then_fails members_db
              (submit (Some "report v2") (Some "Home") (Some (Some 739020))) 1
              (ToDos.mk 1 "report" (Some 1) (Some 739010))
              "report v2" "Home" 739020 eq_refl eq_refl) as [Ha _].
  split; [exact Ha | reflexivity].
Defined.

#[local] Instance update_footprint :
  Footprint rewrites_to_do same_but_to_do_fields.
Proof.
  unfold same_but_to_do_fields. split.
  - intros d. repeat split.
  - intros a b c [H1 [H2 [H3 H4]]] [H5 [H6 [H7 H8]]].
    repeat split; congruence.
  - intros d c d' Hc H. destruct c; try discriminate.
    simpl in H. inversion H; subst; simpl. repeat split.
    apply rewrite_row_id.
Qed.

(** X4.  update_to_do never answers with its redirect to show_to_do:
    every request ends in the rendered form or in a 500.  And whatever
    the request, it leaves categories, the archive and users as found
    and the keys of to_dos in place: it neither adds nor removes a
    to-do. *)
Theorem update_to_do_never_redirects (s : DB) (rq : Request) (i : Z) :
  let o := serve (update_to_do i rq) s in
  (forall endpoint values, answer o <> redirect endpoint values)
  /\ categories (store o) = categories s
  /\ got_dones (store o) = got_dones s
  /\ users (store o) = users s
  /\ map ToDos.id (to_dos (store o)) = map ToDos.id (to_dos s).
Proof.
  simpl. split.
  - intros endpoint values.
    destruct (lookup ToDos.id i (to_dos s)) as [t|] eqn:H.
    + destruct (UpdateToDoForm rq (categories s) t (related_category s t))
        as [[[n cn] d]|errors] eqn:Hf.
      * pose proof (ToDoForm_Valid_inv _ _ _ _ _ _ _ _ Hf) as Hinv.
        destruct Hinv as [_ [_ [_ [_ [_ [_ [He _]]]]]]].
        destruct (find_name_listed cn (categories s) He) as [c [Hc _]].
        rewrite (update_to_do_valid s rq i t n cn d c H Hf Hc). discriminate.
      * rewrite (update_to_do_invalid s rq i t errors H Hf). discriminate.
    + rewrite (update_to_do_absent s rq i H). discriminate.
  - apply (respects_serve (allowed := rewrites_to_do)
             (R := same_but_to_do_fields)).
    unfold update_to_do. footprint.
Qed.

(** X5.  update_to_do validates the due date again: for a stored to-do,
    a submitted form whose due date (the one sent or, when none is
    sent, the one stored) is before today is rendered again with the
    date_check message, and nothing is committed.  So a to-do whose
    date has passed can only be updated together with its date. *)
Theorem update_to_do_past_due_date (s : DB) (rq : Request) (i : Z)
    (t : ToDos.t) (d : date) :
  lookup ToDos.id i (to_dos s) = Some t ->
  is_submitted rq = true ->
  ToDoForm_data_due_date rq (ToDos.due_date t) = Some d ->
  d < today rq ->
  let o := serve (update_to_do i rq) s in
  store o = s
  /\ exists errors,
       answer o = render_template "update-to-do.html"
                    [("form", t_form errors); ("to_do", t_to_do (Some t))]
       /\ In ("due_date", "Due Date can't be in the past!") errors.
Proof.
  intros H Hs Hd Hlt. simpl.
  pose proof (proj1 (date_check_spec (today rq) d) Hlt) as Hdc.
  assert (Hform : exists errors,
             UpdateToDoForm rq (categories s) t (related_category s t)
             = Invalid errors
             /\ In ("due_date", "Due Date can't be in the past!") errors).
  { unfold UpdateToDoForm, ToDoForm, validate_due_date.
    rewrite Hs, Hd, Hdc.
    destruct (csrf_token_valid rq);
      destruct (DataRequired (ToDoForm_data_name rq (Some (ToDos.name t))));
      destruct (validate_category (categories s)
                  (ToDoForm_data_category rq (related_category s t)));
      eexists; (split; [reflexivity|]);
      apply in_or_app; right; apply in_or_app; right;
      apply in_or_app; left; left; reflexivity. }
  destruct Hform as [errors [Hf Hin]].
  rewrite (update_to_do_invalid s rq i t errors H Hf). simpl.
  split; [reflexivity|]. exists errors. split; [reflexivity | exact Hin].
Qed.

Lemma update_to_do_past_due_date_witness :
  store (serve (update_to_do 2 (submit (Some "errand, urgent") None None))
               members_db)
  = members_db.
Proof.
  destruct (update_to_do_past_due_date members_db
              (submit (Some "errand, urgent") None None) 2
              (ToDos.mk 2 "errand" None (Some 738990)) 738990
              eq_refl eq_refl eq_refl eq_refl) as [Hs _].
  exact Hs.
Defined.

(** ** update_category *)

Lemma update_category_taken s rq i c n :
  UpdateCategoryForm rq = Valid n ->
  lookup Categories.id i (categories s) = Some c ->
  name_taken n (filter (fun c => negb (Categories.id c =? i)) (categories s))
  = true ->
  serve (update_category i rq) s
  = mkOutcome s [] (InternalServerError IntegrityError).
Proof.
  intros Hf Hl Ht. destruct (lookup_Some _ _ _ _ Hl) as [Hid _].
  unfold serve, update_category. rewrite Hf.
  unfold bind, session_get, getattr, session_add, commit, ret. simpl.
  rewrite Hl. simpl. rewrite Hid, Ht. reflexivity.
Qed.

(** X6.  update_category does not catch what add_new_category catches.
    A valid form that renames a stored category to the name of another
    stored category is refused by UNIQUE on categories.name; the
    IntegrityError leaves the view, so the answer is a 500, nothing is
    flashed and the database is as found.  A valid form for an id that
    is not stored is a 500 as well (AttributeError on [None]). *)
Theorem update_category_failures (s : DB) (rq : Request) (i : Z) (n : string) :
  UpdateCategoryForm rq = Valid n ->
  (forall c other,
     lookup Categories.id i (categories s) = Some c ->
     In other (categories s) -> Categories.id other <> i ->
     Categories.name other = n ->
     serve (update_category i rq) s
     = mkOutcome s [] (InternalServerError IntegrityError))
  /\ (lookup Categories.id i (categories s) = None ->
        serve (update_category i rq) s
        = mkOutcome s []
            (InternalServerError (AttributeError "NoneType" "name"))).
Proof.
  intros Hf. split.
  - intros c other Hl Hin Hne Hname.
    apply (update_category_taken s rq i c n Hf Hl).
    apply name_taken_In. rewrite <- Hname. apply in_map.
    apply filter_In. split; [exact Hin|].
    apply negb_true_iff, Z.eqb_neq. exact Hne.
  - intros Hl. unfold serve, update_category. rewrite Hf.
    unfold bind, session_get, getattr, raise. simpl. rewrite Hl. reflexivity.
Qed.

Lemma update_category_failures_witness :
  serve (update_category 1 (submit (Some "Home") None None)) members_db
  = mkOutcome members_db [] (InternalServerError IntegrityError)
  /\ serve (update_category 9 (submit (Some "Home") None None)) members_db
     = mkOutcome members_db []
         (InternalServerError (AttributeError "NoneType" "name")).
Proof.
  destruct (update_category_failures members_db
              (submit (Some "Home") None None) 1 "Home" eq_refl) as [Htaken _].
  destruct (update_category_failures members_db
              (submit (Some "Home") None None) 9 "Home" eq_refl) as [_ Hnone].
  split.
  - apply (Htaken (Categories.mk 1 "Work") (Categories.mk 2 "Home") eq_refl).
    + simpl. right. left. reflexivity.
    + discriminate.
    + reflexivity.
  - apply Hnone. reflexivity.
Defined.

Lemma NoDup_map_eq {A B} (f : A -> B) l a b :
  NoDup (map f l) -> In a l -> In b l -> f a = f b -> a = b.
Proof.
  induction l as [|x l IH]; simpl; intros Hnd Ha Hb E; [contradiction|].
  inversion Hnd as [|y ys Hx Hl]; subst.
  destruct Ha as [Ha|Ha], Hb as [Hb|Hb]; subst.
  - reflexivity.
  - exfalso. apply Hx. rewrite E. apply in_map. exact Hb.
  - exfalso. apply Hx. rewrite <- E. apply in_map. exact Ha.
  - apply IH; assumption.
Qed.

(** X7.  In a database that obeys the constraints on categories, a
    valid form that gives a stored category the name it already has is
    not a uniqueness conflict: the database is as found and the answer
    is the redirect to show_category for that name. *)
Theorem update_category_same_name (s : DB) (rq : Request) (i : Z)
    (c : Categories.t) :
  categories_wf s ->
  lookup Categories.id i (categories s) = Some c ->
  UpdateCategoryForm rq = Valid (Categories.name c) ->
  serve (update_category i rq) s
  = mkOutcome s []
      (redirect "show_category" [("category", v_str (Categories.name c))]).
Proof.
  intros [Hid Hname] Hl Hf. destruct (lookup_Some _ _ _ _ Hl) as [Hci Hcin].
  rewrite (update_category_found s rq i c (Categories.name c) Hf Hl).
  - f_equal. destruct s as [cats ts gs us]. simpl in *. f_equal.
    rewrite <- (map_id cats) at 2. apply map_ext_in. intros b Hb.
    unfold rename_row. destruct (Z.eqb_spec (Categories.id b) i) as [E|E];
      [|reflexivity].
    assert (b = c).
    { apply (NoDup_map_eq Categories.id cats); auto. congruence. }
    subst b. destruct c; reflexivity.
  - apply name_taken_false. intros Hin. apply in_map_iff in Hin.
    destruct Hin as [b [Hbn Hb]]. apply filter_In in Hb.
    destruct Hb as [Hb Hne]. apply negb_true_iff, Z.eqb_neq in Hne.
    assert (b = c) by (apply (NoDup_map_eq Categories.name (categories s)); auto).
    subst b. contradiction.
Qed.

Lemma update_category_same_name_witness :
  serve (update_category 2 (submit (Some "Home") None None)) members_db
  = mkOutcome members_db []
      (redirect "show_category" [("category", v_str "Home")]).
Proof.
  apply (update_category_same_name members_db (submit (Some "Home") None None)
           2 (Categories.mk 2 "Home")).
  - split; simpl; repeat constructor; simpl; intuition discriminate.
  - reflexivity.
  - reflexivity.
Defined.

(** ** show_category and show_to_do, the targets of the redirects *)

Lemma find_app_none {A} (p : A -> bool) l l' :
  find p l = None -> find p (l ++ l') = find p l'.
Proof.
  induction l as [|a l IH]; simpl; [reflexivity|].
  destruct (p a); [discriminate | exact IH].
Qed.

Lemma find_name_taken n (l : list Categories.t) :
  name_taken n l = true ->
  exists c, find (fun c => String.eqb (Categories.name c) n) l = Some c
            /\ In c l /\ Categories.name c = n.
Proof. intros H. apply find_name_listed. exact H. Qed.

Lemma show_category_found s rq n c :
  find (fun c => String.eqb (Categories.name c) n) (categories s) = Some c ->
  serve (show_category n rq) s
  = mkOutcome s [] (render_template "show-category.html"
                      [("category", t_category (Some c))]).
Proof.
  intros H. unfold serve, show_category, bind, filter_by_name_first, getattr,
    ret. simpl.
  rewrite H. reflexivity.
Qed.

(** X8.  show_category renders the first stored category of the
    requested name; for a name that no category has, it reads [.id] on
    [None] and answers with the 500 of an AttributeError. *)
Theorem show_category_found_or_fails (s : DB) (rq : Request) (n : string) :
  (In n (map Categories.name (categories s)) ->
     exists c,
       In c (categories s) /\ Categories.name c = n
       /\ answer (serve (show_category n rq) s)
          = render_template "show-category.html"
              [("category", t_category (Some c))])
  /\ (~ In n (map Categories.name (categories s)) ->
        answer (serve (show_category n rq) s)
        = InternalServerError (AttributeError "NoneType" "id")).
Proof.
  split.
  - intros Hin. apply name_taken_In in Hin.
    destruct (find_name_taken n _ Hin) as [c [Hf [Hc Hn]]].
    exists c. rewrite (show_category_found s rq n c Hf). auto.
  - intros Hnot. apply name_taken_false in Hnot.
    unfold serve, show_category, bind, filter_by_name_first, getattr, raise.
    simpl.
    destruct (find (fun c => String.eqb (Categories.name c) n) (categories s))
      as [c|] eqn:E; [|reflexivity].
    apply find_some in E. destruct E as [Hin Hc].
    unfold name_taken in Hnot.
    assert (existsb (fun c => String.eqb (Categories.name c) n) (categories s)
            = true) by (apply existsb_exists; exists c; auto).
    congruence.
Qed.

Lemma show_category_found_or_fails_witness :
  answer (serve (show_category "Home" anonymous) members_db)
  = render_template "show-category.html"
      [("category", t_category (Some (Categories.mk 2 "Home")))]
  /\ answer (serve (show_category "Garden" anonymous) members_db)
     = InternalServerError (AttributeError "NoneType" "id").
Proof.
  split; [reflexivity|].
  apply (proj2 (show_category_found_or_fails members_db anonymous "Garden")).
  simpl. intuition discriminate.
Defined.





(** ** clear_categories *)

Lemma orphan_to_do_fields i t :
  (ToDos.id (orphan_to_do i t), ToDos.name (orphan_to_do i t),
   ToDos.due_date (orphan_to_do i t))
  = (ToDos.id t, ToDos.name t, ToDos.due_date t).
Proof.
  unfold orphan_to_do. destruct (ToDos.parent_id t) as [p|]; [|reflexivity].
  destruct (p =? i); reflexivity.
Qed.

Lemma bind_ok {A B} (m : M A) (k : A -> M B) w a w' :
  m w = (Ok a, w') -> bind m k w = k a w'.
Proof. intros H. unfold bind. rewrite H. reflexivity. Qed.

Lemma filter_not_listed ids a (l : list Categories.t) :
  filter (fun c => negb (existsb (Z.eqb (Categories.id c)) ids))
         (filter (fun c => negb (Categories.id c =? a)) l)
  = filter (fun c => negb (existsb (Z.eqb (Categories.id c)) (a :: ids))) l.
Proof.
  induction l as [|c cs IH]; simpl; [reflexivity|].
  destruct (Categories.id c =? a); simpl; [exact IH|].
  destruct (existsb (Z.eqb (Categories.id c)) ids); simpl;
    [exact IH | f_equal; exact IH].
Qed.

(** The loop of clear_categories, started with an empty session. *)
Lemma clear_categories_loop l : forall w,
  pending w = [] ->
  exists ts,
    for_each l
      (fun category =>
         session_delete (Some category)
           (fun c => delete_Categories (Categories.id c)) ;;
         commit) w
    = (Ok tt,
       mkWorld (mkDB (filter (fun c => negb (existsb (Z.eqb (Categories.id c))
                                                     (map Categories.id l)))
                             (categories (db w)))
                     ts (got_dones (db w)) (users (db w)))
               [] (flashes w))
    /\ map (fun t => (ToDos.id t, ToDos.name t, ToDos.due_date t)) ts
       = map (fun t => (ToDos.id t, ToDos.name t, ToDos.due_date t))
             (to_dos (db w)).
Proof.
  induction l as [|a l IH]; intros w Hp.
  - exists (to_dos (db w)). split; [|reflexivity].
    simpl. unfold ret. rewrite filter_all by reflexivity.
    destruct w as [[c t g u] p f]. simpl in *. subst p. reflexivity.
  - set (w1 := mkWorld
                 (mkDB (filter (fun c => negb (Categories.id c =? Categories.id a))
                               (categories (db w)))
                       (map (orphan_to_do (Categories.id a)) (to_dos (db w)))
                       (got_dones (db w)) (users (db w)))
                 [] (flashes w)).
    destruct (IH w1 eq_refl) as [ts [Hrun Hts]].
    exists ts. split.
    + cbn [for_each]. rewrite (bind_ok _ _ w tt w1).
      2: { unfold bind, session_delete, session_add, commit. simpl.
           rewrite Hp. reflexivity. }
      rewrite Hrun. simpl. rewrite filter_not_listed. reflexivity.
    + rewrite Hts. simpl. rewrite map_map. apply map_ext.
      intros t. apply orphan_to_do_fields.
Qed.

(** X11.  clear_categories deletes every category and no to-do: the
    to-dos keep their keys, names and due dates, and the archive is as
    found.  With no category left, every to-do that is marked done
    afterwards is archived under the category text "None". *)
Theorem clear_categories_orphans (s : DB) (rq rq' : Request) :
  let o := serve (clear_categories rq) s in
  categories (store o) = []
  /\ map (fun t => (ToDos.id t, ToDos.name t, ToDos.due_date t))
         (to_dos (store o))
     = map (fun t => (ToDos.id t, ToDos.name t, ToDos.due_date t)) (to_dos s)
  /\ got_dones (store o) = got_dones s
  /\ answer o = redirect "dashboard" []
  /\ forall i t,
       lookup ToDos.id i (to_dos (store o)) = Some t ->
       got_dones (store (serve (mark_done i rq') (store o)))
       = got_dones s
         ++ [GotDones.mk (next_id (map GotDones.id (got_dones s)))
                         (ToDos.name t) "None" (Some (today rq'))].
Proof.
  simpl.
  destruct (clear_categories_loop (categories s) (mkWorld s [] []) eq_refl)
    as [ts [Hrun Hts]].
  assert (Hserve : serve (clear_categories rq) s
                   = mkOutcome (mkDB [] ts (got_dones s) (users s)) []
                               (redirect "dashboard" [])).
  { unfold serve, clear_categories. unfold bind at 1, query_all. simpl.
    unfold bind at 1. simpl in Hrun. rewrite Hrun. simpl.
    rewrite filter_none; [reflexivity|].
    intros c Hc. apply negb_false_iff, existsb_exists.
    exists (Categories.id c). split; [apply in_map; exact Hc | apply Z.eqb_refl]. }
  rewrite Hserve. simpl. repeat split; auto.
  intros i t Hl.
  rewrite (mark_done_found (mkDB [] ts (got_dones s) (users s)) rq' i t Hl).
  simpl. unfold new_got_done, related_category. simpl.
  destruct (ToDos.parent_id t); reflexivity.
Qed.

(** ** got_done *)

Lemma date_geb_total a b : date_geb a b = true \/ date_geb b a = true.
Proof.
  destruct a as [x|], b as [y|]; simpl; auto.
  destruct (Z.leb_spec y x); [left; reflexivity|].
  right. apply Z.leb_le. lia.
Qed.

Lemma date_geb_trans a b c :
  date_geb a b = true -> date_geb b c = true -> date_geb a c = true.
Proof.
  destruct a as [x|], b as [y|], c as [z|]; simpl; auto; try discriminate.
  intros H1 H2. apply Z.leb_le in H1, H2. apply Z.leb_le. lia.
Qed.

Lemma insert_desc_perm g l : Permutation (insert_desc g l) (g :: l).
Proof.
  induction l as [|h l IH]; simpl; [apply Permutation_refl|].
  destruct (date_geb (GotDones.date h) (GotDones.date g)).
  - eapply Permutation_trans; [apply perm_skip; exact IH | apply perm_swap].
  - apply Permutation_refl.
Qed.

Lemma insert_desc_sorted g l :
  StronglySorted not_before l -> StronglySorted not_before (insert_desc g l).
Proof.
  induction 1 as [|h l Hl IH Hh]; simpl.
  - constructor; [constructor | constructor].
  - destruct (date_geb (GotDones.date h) (GotDones.date g)) eqn:E.
    + constructor; [exact IH|].
      apply Forall_forall. intros x Hx.
      apply (Permutation_in _ (insert_desc_perm g l)) in Hx.
      destruct Hx as [Hx|Hx]; [subst; exact E|].
      apply (proj1 (Forall_forall _ _) Hh). exact Hx.
    + assert (Hg : not_before g h).
      { destruct (date_geb_total (GotDones.date g) (GotDones.date h)) as [T|T];
          [exact T | congruence]. }
      constructor; [constructor; assumption|].
      constructor; [exact Hg|].
      apply Forall_forall. intros x Hx. unfold not_before.
      apply date_geb_trans with (GotDones.date h); [exact Hg|].
      apply (proj1 (Forall_forall _ _) Hh). exact Hx.
Qed.

Lemma order_by_desc_date_acc l : forall acc,
  StronglySorted not_before acc ->
  Permutation (fold_left (fun acc g => insert_desc g acc) l acc) (l ++ acc)
  /\ StronglySorted not_before (fold_left (fun acc g => insert_desc g acc) l acc).
Proof.
  induction l as [|g l IH]; simpl; intros acc Hacc.
  - split; [apply Permutation_refl | exact Hacc].
  - destruct (IH (insert_desc g acc) (insert_desc_sorted g acc Hacc))
      as [Hp Hs].
    split; [|exact Hs].
    eapply Permutation_trans; [exact Hp|].
    eapply Permutation_trans;
      [apply Permutation_app_head; apply insert_desc_perm|].
    apply Permutation_sym. apply Permutation_middle.
Qed.

(** X12.  got_done lists the archive and nothing else: the rows it
    hands to the template are the stored rows, each as often as it is
    stored, and they are in the order of desc(GotDones.date): no row
    comes before a row of a later date, and rows without a date come
    last. *)
Theorem got_done_lists_latest_first (s : DB) (rq : Request) :
  exists listed,
    serve (got_done rq) s
    = mkOutcome s [] (render_template "got-done.html"
                        [("all_got_dones", t_got_dones listed)])
    /\ Permutation listed (got_dones s)
    /\ StronglySorted not_before listed.
Proof.
  exists (order_by_desc_date (got_dones s)). split; [reflexivity|].
  unfold order_by_desc_date.
  destruct (order_by_desc_date_acc (got_dones s) [] (SSorted_nil _))
    as [Hp Hs].
  rewrite app_nil_r in Hp. split; assumption.
Qed.

Lemma clear_categories_orphans_witness :
  let o := serve (clear_categories anonymous) members_db in
  categories (store o) = []
  /\ got_dones (store (serve (mark_done 1 anonymous) (store o)))
     = got_dones members_db ++ [GotDones.mk 3 "report" "None" (Some 739000)].
Proof.
  destruct (clear_categories_orphans members_db anonymous anonymous)
    as [Hc [_ [_ [_ Hdone]]]].
  split; [exact Hc|].
  exact (Hdone 1 (ToDos.mk 1 "report" None (Some 739010)) eq_refl).
Defined.

(** ** register, login, logout and load_user *)

Lemma email_taken_find e l :
  email_taken e l = true ->
  exists u, find (fun u => String.eqb (User.email u) e) l = Some u.
Proof.
  intros H. destruct (find (fun u => String.eqb (User.email u) e) l) as [u|] eqn:E.
  - exists u. reflexivity.
  - apply existsb_exists in H. destruct H as [u [Hin Hu]].
    apply (find_none _ _ E) in Hin. congruence.
Qed.

Lemma email_free_find e l :
  email_taken e l = false ->
  find (fun u => String.eqb (User.email u) e) l = None.
Proof.
  intros H. destruct (find (fun u => String.eqb (User.email u) e) l) as [u|] eqn:E;
    [|reflexivity].
  apply find_some in E. destruct E as [Hin Hu].
  assert (email_taken e l = true) by (apply existsb_exists; exists u; auto).
  congruence.
Qed.

Lemma register_new `{PasswordHasher} rq s e p n :
  RegisterForm rq = Valid (e, p, n) ->
  email_taken e (users s) = false ->
  serve_account (register rq) s
  = (login_user (next_id (map User.id (users s))),
     mkOutcome
       (mkDB (categories s) (to_dos s) (got_dones s)
             (users s
                ++ [User.mk (next_id (map User.id (users s))) None e
                            (generate_password_hash (salt rq) p) n]))
       [] (redirect "dashboard" [])).
Proof.
  intros Hf He. unfold serve_account, register. rewrite Hf.
  unfold bind, scalar_User_where_email, session_add_User_commit, ret. simpl.
  rewrite (email_free_find e _ He). simpl.
  rewrite He. reflexivity.
Qed.

Lemma register_taken `{PasswordHasher} rq s e p n :
  RegisterForm rq = Valid (e, p, n) ->
  email_taken e (users s) = true ->
  serve_account (register rq) s
  = (session_kept,
     mkOutcome s
       ["You've already signed up with that email, log in instead!"]
       (redirect "login" [])).
Proof.
  intros Hf He. destruct (email_taken_find e _ He) as [u Hu].
  unfold serve_account, register. rewrite Hf.
  unfold bind, scalar_User_where_email, flash, ret. simpl.
  rewrite Hu. reflexivity.
Qed.

(** X13.  register never stores a second account for an email: when a
    valid RegisterForm carries the email of a stored user, the database
    is as found, nobody is logged in, and the visitor is sent to login
    with the "already signed up" message. *)
Theorem register_existing_email `{PasswordHasher} (s : DB)
    (rq : AccountRequest) (e p n : string) :
  RegisterForm rq = Valid (e, p, n) ->
  email_taken e (users s) = true ->
  serve_account (register rq) s
  = (session_kept,
     mkOutcome s
       ["You've already signed up with that email, log in instead!"]
       (redirect "login" [])).
Proof. apply register_taken. Qed.

Lemma register_existing_email_witness :
  serve_account (@register plain_hasher
                   (sign_up "ann@example.org" "other" "Annie")) members_db
  = (session_kept,
     mkOutcome members_db
       ["You've already signed up with that email, log in instead!"]
       (redirect "login" [])).
Proof.
  exact (@register_existing_email plain_hasher members_db
           (sign_up "ann@example.org" "other" "Annie")
           "ann@example.org" "other" "Annie" eq_refl eq_refl).
Defined.

(** X14.  Round trip of an account.  A valid RegisterForm with an email
    that no stored user has appends one user row, which holds the hash
    of the password, leaves the other tables as found, and logs that
    user in.
    On the database it leaves, load_user finds that row under the key
    that was logged in, and a valid LoginForm with the same email and
    password logs the same user in again and redirects to dashboard. *)
Theorem register_then_login `{PasswordHasher} (s : DB)
    (rq1 rq2 : AccountRequest) (e p n : string) :
  RegisterForm rq1 = Valid (e, p, n) ->
  email_taken e (users s) = false ->
  LoginForm rq2 = Valid (e, p) ->
  let uid := next_id (map User.id (users s)) in
  let new_user :=
    User.mk uid None e (generate_password_hash (salt rq1) p) n in
  let s1 := store (snd (serve_account (register rq1) s)) in
  fst (serve_account (register rq1) s) = login_user uid
  /\ s1 = mkDB (categories s) (to_dos s) (got_dones s) (users s ++ [new_user])
  /\ fst (load_user uid (mkWorld s1 [] [])) = Ok new_user
  /\ serve_account (login rq2) s1
     = (login_user uid, mkOutcome s1 [] (redirect "dashboard" [])).
Proof.
  intros Hf He Hl. simpl.
  rewrite (register_new rq1 s e p n Hf He). simpl.
  split; [reflexivity|]. split; [reflexivity|]. split.
  - unfold load_user, get_or_404, bind, session_get, ret. simpl.
    rewrite lookup_last; [reflexivity| |reflexivity].
    intros r Hr. apply next_id_fresh. exact Hr.
  - unfold serve_account, login. rewrite Hl.
    unfold bind, scalar_User_where_email, ret. simpl.
    rewrite find_app_none by (apply email_free_find; exact He).
    simpl. rewrite String.eqb_refl. simpl.
    rewrite check_generated. reflexivity.
Qed.

Lemma register_then_login_witness :
  let s1 := store (snd (serve_account
                          (@register plain_hasher
                             (sign_up "bob@example.org" "hunter2" "Bob"))
                          members_db)) in
  serve_account (@login plain_hasher (sign_up "bob@example.org" "hunter2" "Bob"))
                s1
  = (login_user 2, mkOutcome s1 [] (redirect "dashboard" [])).
Proof.
  destruct (@register_then_login plain_hasher members_db
              (sign_up "bob@example.org" "hunter2" "Bob")
              (sign_up "bob@example.org" "hunter2" "Bob")
              "bob@example.org" "hunter2" "Bob" eq_refl eq_refl eq_refl)
    as [_ [_ [_ Hlogin]]].
  exact Hlogin.
Defined.

(** X15.  login changes nothing in the database and never logs anybody
    out.  It logs a user in only when the form is valid and a stored
    user has the submitted email and a password hash that
    check_password_hash accepts for the submitted password; in every
    other case the session is kept as it was. *)
Theorem login_only_with_credentials `{PasswordHasher} (s : DB)
    (rq : AccountRequest) :
  store (snd (serve_account (login rq) s)) = s
  /\ fst (serve_account (login rq) s) <> logout_user
  /\ forall uid,
       fst (serve_account (login rq) s) = login_user uid ->
       exists u e p,
         LoginForm rq = Valid (e, p)
         /\ In u (users s) /\ User.id u = uid /\ User.email u = e
         /\ check_password_hash (User.password u) p = true.
Proof.
  unfold serve_account, login.
  destruct (LoginForm rq) as [[e p]|errors] eqn:Hf.
  - unfold bind, scalar_User_where_email, flash, ret. simpl.
    destruct (find (fun u => String.eqb (User.email u) e) (users s))
      as [u|] eqn:Hu; simpl.
    + destruct (check_password_hash (User.password u) p) eqn:Hc; simpl.
      * split; [reflexivity|]. split; [discriminate|].
        intros uid Huid. inversion Huid; subst.
        apply find_some in Hu. destruct Hu as [Hin He].
        apply String.eqb_eq in He.
        exists u, e, p. auto.
      * split; [reflexivity|]. split; discriminate.
    + split; [reflexivity|]. split; discriminate.
  - simpl. split; [reflexivity|]. split; discriminate.
Qed.

Lemma login_only_with_credentials_witness :
  fst (serve_account (@login plain_hasher
                        (sign_up "ann@example.org" "guess" "Ann")) members_db)
  = session_kept
  /\ fst (serve_account (@login plain_hasher
                           (sign_up "ann@example.org" "secret" "Ann"))
                        members_db)
     = login_user 1.
Proof.
  split; [reflexivity|].
  destruct (@login_only_with_credentials plain_hasher members_db
              (sign_up "ann@example.org" "secret" "Ann")) as [_ [_ Hex]].
  destruct (Hex 1 eq_refl) as [u _]. reflexivity.
Defined.

(** ** What every reachable database satisfies *)

(** The three account views reach the database only through the INSERT
    of register. *)
Lemma account_store `{PasswordHasher} (v : visit) (s : DB) :
  (forall c rq, v <> to_view c rq) ->
  visit_store s v = s
  \/ exists u,
       visit_store s v
       = mkDB (categories s) (to_dos s) (got_dones s) (users s ++ [u])
       /\ User.id u = next_id (map User.id (users s))
       /\ email_taken (User.email u) (users s) = false.
Proof.
  intros Hv. destruct v as [c rq|rq|rq|]; simpl.
  - exfalso. apply (Hv c rq). reflexivity.
  - destruct (RegisterForm rq) as [[[e p] n]|errors] eqn:Hf.
    + destruct (email_taken e (users s)) eqn:He.
      * left. rewrite (register_taken rq s e p n Hf He). reflexivity.
      * right. rewrite (register_new rq s e p n Hf He). simpl.
        eexists. split; [reflexivity|]. split; [reflexivity | exact He].
    + left. unfold serve_account, register. rewrite Hf. reflexivity.
  - left. unfold serve_account, login.
    destruct (LoginForm rq) as [[e p]|errors]; [|reflexivity].
    unfold bind, scalar_User_where_email, flash, ret. simpl.
    destruct (find (fun u => String.eqb (User.email u) e) (users s)) as [u|];
      [|reflexivity].
    simpl. destruct (check_password_hash (User.password u) p); reflexivity.
  - left. reflexivity.
Qed.

Lemma orphan_to_do_ids i l :
  map ToDos.id (map (orphan_to_do i) l) = map ToDos.id l.
Proof.
  rewrite map_map. apply map_ext. intros t.
  pose proof (orphan_to_do_fields i t) as E. congruence.
Qed.

Lemma orphan_user_ids i l :
  map User.id (map (orphan_user i) l) = map User.id l.
Proof.
  rewrite map_map. apply map_ext. intros u. unfold orphan_user.
  destruct (User.parent_id u) as [p|]; [|reflexivity].
  destruct (p =? i); reflexivity.
Qed.

Lemma orphan_user_emails i l :
  map User.email (map (orphan_user i) l) = map User.email l.
Proof.
  rewrite map_map. apply map_ext. intros u. unfold orphan_user.
  destruct (User.parent_id u) as [p|]; [|reflexivity].
  destruct (p =? i); reflexivity.
Qed.

Lemma NoDup_next_id {A} (key : A -> Z) l (mk : Z -> A) :
  (forall i, key (mk i) = i) ->
  NoDup (map key l) -> NoDup (map key (l ++ [mk (next_id (map key l))])).
Proof.
  intros Hk Hnd. rewrite map_app. simpl. rewrite Hk.
  apply NoDup_snoc; [exact Hnd|].
  intros Hin. apply next_id_above in Hin. lia.
Qed.

#[local] Instance keys_footprint : Footprint any_change (keeps keys_unique).
Proof.
  unfold keeps, keys_unique. split.
  - auto.
  - auto.
  - intros d c d' _ H [Hci [Hcn [Ht [Hg [Hu He]]]]].
    destruct c as [n|n p due|n cat dt|i n|i n p due|i|i|i]; simpl in H.
    + destruct (name_taken n (categories d)) eqn:Hn; [discriminate|].
      inversion H; subst; simpl. repeat split; auto.
      * apply (NoDup_next_id Categories.id _ (fun k => Categories.mk k n)); auto.
      * rewrite map_app. simpl. apply NoDup_snoc; [exact Hcn|].
        intros Hin. apply name_taken_In in Hin. congruence.
    + inversion H; subst; simpl. repeat split; auto.
      apply (NoDup_next_id ToDos.id _
               (fun k => ToDos.mk k n (option_map Categories.id p) due)); auto.
    + inversion H; subst; simpl. repeat split; auto.
      apply (NoDup_next_id GotDones.id _ (fun k => GotDones.mk k n cat dt));
        auto.
    + destruct (name_taken n
                  (filter (fun c => negb (Categories.id c =? i)) (categories d)))
        eqn:Hn; [discriminate|].
      inversion H; subst; simpl. repeat split; auto.
      * rewrite rename_row_id. exact Hci.
      * apply rename_row_NoDup; assumption.
    + inversion H; subst; simpl. repeat split; auto.
      rewrite rewrite_row_id. exact Ht.
    + inversion H; subst; simpl. repeat split; auto.
      * apply NoDup_map_filter. exact Hci.
      * apply NoDup_map_filter. exact Hcn.
      * rewrite orphan_to_do_ids. exact Ht.
    + inversion H; subst; simpl. repeat split; auto.
      * apply NoDup_map_filter. exact Ht.
      * rewrite orphan_user_ids. exact Hu.
      * rewrite orphan_user_emails. exact He.
    + inversion H; subst; simpl. repeat split; auto.
      apply NoDup_map_filter. exact Hg.
Qed.

Lemma account_keys_unique `{PasswordHasher} v s :
  (forall c rq, v <> to_view c rq) ->
  keys_unique s -> keys_unique (visit_store s v).
Proof.
  intros Hv Hs.
  destruct (account_store v s Hv) as [E|[u [E [Hid Hem]]]]; rewrite E;
    [exact Hs|].
  destruct Hs as [Hci [Hcn [Ht [Hg [Hu He]]]]].
  unfold keys_unique; simpl. repeat split; auto.
  - rewrite map_app. simpl. apply NoDup_snoc; [exact Hu|]. intros Hin.
    rewrite Hid in Hin. apply next_id_above in Hin. lia.
  - rewrite map_app. simpl. apply NoDup_snoc; [exact He|]. intros Hin.
    assert (email_taken (User.email u) (users s) = true).
    { apply existsb_exists. apply in_map_iff in Hin.
      destruct Hin as [u' [Hu' Hin']]. exists u'. split;
        [exact Hin' | apply String.eqb_eq; exact Hu']. }
    congruence.
Qed.

Lemma visit_keys_unique `{PasswordHasher} s v :
  keys_unique s -> keys_unique (visit_store s v).
Proof.
  destruct v as [c rq|rq|rq|];
    try (apply account_keys_unique; intros; discriminate).
  simpl. unfold step.
  apply (respects_serve (allowed := any_change) (R := keeps keys_unique)).
  destruct c; simpl;
    unfold dashboard, add_new_category, show_category, all_categories,
      all_to_dos, add_new_to_do, show_to_do, update_to_do, delete,
      update_category, mark_done, got_done, clear_got_done, delete_to_do,
      clear_categories, UpdateCategoryForm;
    footprint.
Qed.

(** X16.  In every database reached from the empty one by any sequence
    of requests to any view of the file, the primary keys of the four
    tables are pairwise distinct, no two categories share a name and no
    two users share an email. *)
Theorem reachable_keys_unique `{PasswordHasher} (l : list visit) :
  keys_unique (browse empty_db l).
Proof.
  unfold browse.
  assert (Hgen : forall s, keys_unique s -> keys_unique (fold_left visit_store l s)).
  { induction l as [|v l IH]; simpl; intros s Hs; [exact Hs|].
    apply IH. apply visit_keys_unique. exact Hs. }
  apply Hgen. unfold keys_unique. simpl. repeat split; constructor.
Qed.

(** *** Every to-do points to a stored category, or to none *)

Lemma lookup_In {A} (key : A -> Z) l a :
  In a l -> exists b, lookup key (key a) l = Some b.
Proof.
  intros Hin. destruct (lookup key (key a) l) as [b|] eqn:E.
  - exists b. reflexivity.
  - exfalso. apply (lookup_None key (key a) l E a Hin). reflexivity.
Qed.

Lemma lookup_found_In {A} (key : A -> Z) i l l' :
  (forall a, In a l -> In (key a) (map key l')) ->
  (exists b, lookup key i l = Some b) -> exists b, lookup key i l' = Some b.
Proof.
  intros Hsub [b Hb]. destruct (lookup_Some _ _ _ _ Hb) as [Hk Hin].
  apply Hsub in Hin. apply in_map_iff in Hin. destruct Hin as [b' [Hk' Hin']].
  rewrite <- Hk, <- Hk'. apply lookup_In. exact Hin'.
Qed.

#[local] Instance references_footprint :
  Footprint sets_no_parent (keeps references_hold).
Proof.
  unfold keeps, references_hold. split.
  - intros d Hd. exact Hd.
  - intros a b c H1 H2 Ha. apply H2, H1, Ha.
  - intros d c d' Hc H Hrefs.
    destruct c as [n|n p due|n cat dt|i n|i n p due|i|i|i]; simpl in H.
    + destruct (name_taken n (categories d)); [discriminate|].
      inversion H; subst; simpl. intros t q Hin Hq.
      apply (lookup_found_In Categories.id q (categories d));
        [|eapply Hrefs; eassumption].
      intros a Ha. apply in_map. apply in_or_app. left. exact Ha.
    + destruct p; [discriminate|].
      inversion H; subst; simpl. intros t q Hin Hq.
      apply in_app_or in Hin. destruct Hin as [Hin|[E|[]]].
      * eapply Hrefs; eassumption.
      * subst t. discriminate.
    + inversion H; subst; simpl. exact Hrefs.
    + destruct (name_taken n _); [discriminate|].
      inversion H; subst; simpl. intros t q Hin Hq.
      apply (lookup_found_In Categories.id q (categories d));
        [|eapply Hrefs; eassumption].
      intros a Ha. rewrite rename_row_id. apply in_map. exact Ha.
    + destruct p; [discriminate|].
      inversion H; subst; simpl. intros t q Hin Hq.
      apply in_map_iff in Hin. destruct Hin as [t0 [E Hin]].
      unfold rewrite_row in E. destruct (ToDos.id t0 =? i).
      * subst t. discriminate.
      * subst t. eapply Hrefs; eassumption.
    + inversion H; subst; simpl. intros t q Hin Hq.
      apply in_map_iff in Hin. destruct Hin as [t0 [E Hin]].
      unfold orphan_to_do in E.
      destruct (ToDos.parent_id t0) as [q0|] eqn:Hq0.
      * destruct (Z.eqb_spec q0 i) as [Ei|Ei].
        -- subst t. discriminate.
        -- subst t. rewrite Hq0 in Hq. inversion Hq; subst q0.
           destruct (Hrefs t0 q Hin Hq0) as [c Hcat].
           destruct (lookup_Some _ _ _ _ Hcat) as [Hk Hcin].
           rewrite <- Hk. apply lookup_In. apply filter_In.
           split; [exact Hcin|]. apply negb_true_iff, Z.eqb_neq. congruence.
      * subst t. congruence.
    + inversion H; subst; simpl. intros t q Hin Hq.
      apply filter_In in Hin. destruct Hin as [Hin _].
      eapply Hrefs; eassumption.
    + inversion H; subst; simpl. exact Hrefs.
Qed.

Lemma visit_references_hold `{PasswordHasher} s v :
  references_hold s -> references_hold (visit_store s v).
Proof.
  intros Hs. destruct v as [c rq|rq|rq|].
  2-4: match goal with
       | |- references_hold (visit_store _ ?v) =>
           destruct (account_store v s) as [E|[u [E _]]];
             [intros; discriminate | rewrite E; exact Hs | rewrite E; exact Hs]
       end.
  simpl. unfold step.
  destruct c;
    try (revert Hs;
         apply (respects_serve (allowed := sets_no_parent)
                  (R := keeps references_hold));
         simpl;
         unfold dashboard, add_new_category, show_category, all_categories,
           all_to_dos, show_to_do, delete, update_category, mark_done,
           got_done, clear_got_done, delete_to_do, clear_categories,
           UpdateCategoryForm;
         solve [footprint]); simpl.
  - (* add_new_to_do *)
    destruct (ToDoForm rq (categories s) None None None)
      as [[[n cn] d]|errors] eqn:Hf.
    + pose proof (ToDoForm_Valid_inv _ _ _ _ _ _ _ _ Hf) as Hinv.
      destruct Hinv as [_ [_ [_ [_ [_ [_ [He _]]]]]]].
      destruct (find_name_listed cn (categories s) He) as [c [Hc [Hin _]]].
      rewrite (add_new_to_do_valid s rq n cn d c Hf Hc). simpl.
      intros t q Ht Hq. simpl in *.
      apply in_app_or in Ht. destruct Ht as [Ht|[E|[]]].
      * eapply Hs; eassumption.
      * subst t. simpl in Hq. inversion Hq; subst q.
        apply lookup_In. exact Hin.
    + rewrite (add_new_to_do_invalid s rq errors Hf). exact Hs.
  - (* update_to_do *)
    destruct (lookup ToDos.id to_do_id (to_dos s)) as [t0|] eqn:Hl.
    + destruct (UpdateToDoForm rq (categories s) t0 (related_category s t0))
        as [[[n cn] d]|errors] eqn:Hf.
      * pose proof (ToDoForm_Valid_inv _ _ _ _ _ _ _ _ Hf) as Hinv.
        destruct Hinv as [_ [_ [_ [_ [_ [_ [He _]]]]]]].
        destruct (find_name_listed cn (categories s) He) as [c [Hc [Hin _]]].
        rewrite (update_to_do_valid s rq to_do_id t0 n cn d c Hl Hf Hc). simpl.
        intros t q Ht Hq. simpl in *.
        apply in_map_iff in Ht. destruct Ht as [t1 [E Ht1]].
        unfold rewrite_row in E. destruct (ToDos.id t1 =? to_do_id).
        -- subst t. simpl in Hq. inversion Hq; subst q.
           apply lookup_In. exact Hin.
        -- subst t. eapply Hs; eassumption.
      * rewrite (update_to_do_invalid s rq to_do_id t0 errors Hl Hf). exact Hs.
    + rewrite (update_to_do_absent s rq to_do_id Hl). exact Hs.
Qed.

(** X17.  In every database reached from the empty one by requests to
    the views of the file, the parent_id of every to-do is NULL or the
    key of a stored category: add_new_to_do and update_to_do only store
    a category they have just read, and deleting categories sets the
    parent_id of their to-dos to NULL. *)
Theorem reachable_references_hold `{PasswordHasher} (l : list visit) :
  forall t p,
    In t (to_dos (browse empty_db l)) -> ToDos.parent_id t = Some p ->
    exists c, lookup Categories.id p (categories (browse empty_db l)) = Some c.
Proof.
  unfold browse.
  assert (Hgen : forall s, references_hold s ->
                           references_hold (fold_left visit_store l s)).
  { induction l as [|v l IH]; simpl; intros s Hs; [exact Hs|].
    apply IH. apply visit_references_hold. exact Hs. }
  apply Hgen. intros t p Hin. simpl in Hin. contradiction.
Qed.

Lemma reachable_references_hold_witness :
  let l := [to_view Add_new_category (submit (Some "Work") None None);
            to_view Add_new_to_do
                    (submit (Some "report") (Some "Work") (Some (Some 739010)));
            to_view (Update_category 1) (submit (Some "Office") None None)] in
  to_dos (@browse plain_hasher empty_db l)
  = [ToDos.mk 1 "report" (Some 1) (Some 739010)]
  /\ exists c,
       lookup Categories.id 1 (categories (@browse plain_hasher empty_db l))
       = Some c.
Proof.
  split; [reflexivity|].
  apply (@reachable_references_hold plain_hasher
           [to_view Add_new_category (submit (Some "Work") None None);
            to_view Add_new_to_do
                    (submit (Some "report") (Some "Work") (Some (Some 739010)));
            to_view (Update_category 1) (submit (Some "Office") None None)]
           (ToDos.mk 1 "report" (Some 1) (Some 739010)) 1).
  - simpl. left. reflexivity.
  - reflexivity.
Defined.

(** *** Every stored category can be chosen in a ToDoForm *)

Lemma CategoryForm_Valid_inv rq n :
  CategoryForm rq = Valid n -> strip_nonempty n = true.
Proof.
  unfold CategoryForm, DataRequired.
  destruct (is_submitted rq); [|discriminate].
  destruct (csrf_token_valid rq); destruct (form_name rq) as [s|];
    try discriminate; destruct (strip_nonempty s) eqn:E; try discriminate.
  intros H. inversion H; subst. exact E.
Qed.

#[local] Instance names_footprint : Footprint fills_names (keeps names_filled).
Proof.
  unfold keeps, names_filled. split.
  - intros d Hd. exact Hd.
  - intros a b c H1 H2 Ha. apply H2, H1, Ha.
  - intros d c d' Hc H Hfilled.
    destruct c as [n|n p due|n cat dt|i n|i n p due|i|i|i]; simpl in H, Hc;
      try (inversion H; subst; simpl; exact Hfilled).
    + destruct (name_taken n (categories d)); [discriminate|].
      inversion H; subst; simpl. intros c Hin.
      apply in_app_or in Hin. destruct Hin as [Hin|[E|[]]].
      * apply Hfilled. exact Hin.
      * subst c. exact Hc.
    + destruct (name_taken n _); [discriminate|].
      inversion H; subst; simpl. intros c Hin.
      apply in_map_iff in Hin. destruct Hin as [c0 [E Hin]].
      unfold rename_row in E. destruct (Categories.id c0 =? i); subst c.
      * exact Hc.
      * apply Hfilled. exact Hin.
    + inversion H; subst; simpl. intros c Hin.
      apply filter_In in Hin. apply Hfilled. apply Hin.
Qed.

Lemma visit_names_filled `{PasswordHasher} s v :
  names_filled s -> names_filled (visit_store s v).
Proof.
  intros Hs. destruct v as [c rq|rq|rq|].
  2-4: match goal with
       | |- names_filled (visit_store _ ?v) =>
           destruct (account_store v s) as [E|[u [E _]]];
             [intros; discriminate | rewrite E; exact Hs | rewrite E; exact Hs]
       end.
  revert Hs. simpl. unfold step.
  apply (respects_serve (allowed := fills_names) (R := keeps names_filled)).
  destruct c; simpl;
    unfold dashboard, add_new_category, show_category, all_categories,
      all_to_dos, add_new_to_do, show_to_do, update_to_do, delete,
      update_category, mark_done, got_done, clear_got_done, delete_to_do,
      clear_categories, UpdateCategoryForm;
    try solve [footprint].
  - destruct (CategoryForm rq) as [n|errors] eqn:Hf; footprint.
    apply respects_session_add. simpl. apply (CategoryForm_Valid_inv rq n Hf).
  - apply respects_bind; [apply respects_session_get | intros x].
    destruct (CategoryForm rq) as [n|errors] eqn:Hf; footprint.
    apply respects_session_add. simpl. apply (CategoryForm_Valid_inv rq n Hf).
Qed.

(** X18.  In every database reached from the empty one by requests to
    the views of the file no category has a blank name, so each stored
    category is a choice that the category field of ToDoForm and
    UpdateToDoForm accepts when its name is submitted. *)
Theorem reachable_categories_selectable `{PasswordHasher} (l : list visit)
    (c : Categories.t) :
  In c (categories (browse empty_db l)) ->
  strip_nonempty (Categories.name c) = true
  /\ validate_category (categories (browse empty_db l))
                       (Some (Categories.name c))
     = inl (Categories.name c).
Proof.
  intros Hin.
  assert (Hgen : forall s, names_filled s ->
                           names_filled (fold_left visit_store l s)).
  { clear Hin. induction l as [|v l IH]; simpl; intros s Hs; [exact Hs|].
    apply IH. apply visit_names_filled. exact Hs. }
  assert (Hfilled : names_filled (browse empty_db l)).
  { apply Hgen. intros c0 H0. simpl in H0. contradiction. }
  pose proof (Hfilled c Hin) as Hc. split; [exact Hc|].
  unfold validate_category, DataRequired. rewrite Hc.
  assert (He : existsb (fun c0 => String.eqb (str (Some c0)) (Categories.name c))
                       (categories (browse empty_db l)) = true).
  { apply existsb_exists. exists c. split; [exact Hin|].
    apply String.eqb_refl. }
  rewrite He. reflexivity.
Qed.

Lemma reachable_categories_selectable_witness :
  let l := [to_view Add_new_category (submit (Some "Work") None None);
            to_register (sign_up "ann@example.org" "secret" "Ann");
            to_view Add_new_category (submit (Some " ") None None)] in
  categories (@browse plain_hasher empty_db l) = [Categories.mk 1 "Work"]
  /\ validate_category (categories (@browse plain_hasher empty_db l))
                       (Some "Work") = inl "Work".
Proof.
  split; [reflexivity|].
  apply (@reachable_categories_selectable plain_hasher
           [to_view Add_new_category (submit (Some "Work") None None);
            to_register (sign_up "ann@example.org" "secret" "Ann");
            to_view Add_new_category (submit (Some " ") None None)]
           (Categories.mk 1 "Work")).
  simpl. left. reflexivity.
Defined.

(** *** The archive is append-only *)

(** X19.  No view except clear_got_done removes or alters an archived
    row: after any sequence of requests to the other views of the file,
    got_dones is the list it was, followed by the rows that were
    archived in between. *)
Theorem archive_append_only `{PasswordHasher} (l : list visit) (s : DB) :
  forallb spares_archive l = true ->
  exists added, got_dones (browse s l) = got_dones s ++ added.
Proof.
  unfold browse. revert s.
  induction l as [|v l IH]; simpl; intros s Hl.
  - exists []. symmetry. apply app_nil_r.
  - apply andb_true_iff in Hl. destruct Hl as [Hv Hl].
    destruct (IH (visit_store s v) Hl) as [added Hadded].
    assert (Hstep : exists a, got_dones (visit_store s v) = got_dones s ++ a).
    { destruct v as [c rq|rq|rq|].
      1: { simpl in Hv. apply negb_true_iff in Hv.
           apply (step_archive_grows s (c, rq)). exact Hv. }
      all: match goal with
           | |- exists a, got_dones (visit_store _ ?v) = _ =>
               destruct (account_store v s) as [E|[u [E _]]];
                 [intros; discriminate | | ];
                 rewrite E; exists []; symmetry; apply app_nil_r
           end. }
    destruct Hstep as [a Ha]. exists (a ++ added).
    rewrite Hadded, Ha, app_assoc. reflexivity.
Qed.

Lemma archive_append_only_witness :
  let l := [to_view (Mark_done 1) anonymous;
            to_view Clear_categories anonymous;
            to_view (Delete_to_do 2) anonymous;
            to_logout] in
  to_dos (@browse plain_hasher members_db l) = []
  /\ categories (@browse plain_hasher members_db l) = []
  /\ exists added,
       got_dones (@browse plain_hasher members_db l)
       = got_dones members_db ++ added.
Proof.
  split; [reflexivity|]. split; [reflexivity|].
  exact (@archive_append_only plain_hasher
           [to_view (Mark_done 1) anonymous;
            to_view Clear_categories anonymous;
            to_view (Delete_to_do 2) anonymous;
            to_logout] members_db eq_refl).
Defined.

(** ** The two routes of "/clear-got-done" *)

(** X20.  clear_categories cannot be requested: its route is the URL
    that clear_got_done registered before it, so no path of the URL
    map leads to it, and "/clear-got-done" leads to clear_got_done. *)
Theorem clear_categories_has_no_route (path : string) :
  match_url path <> Some Clear_categories
  /\ match_url "/clear-got-done" = Some Clear_got_done.
Proof.
  split; [|reflexivity].
  unfold match_url, url_map. cbn [find fst].
  repeat match goal with
         | |- context [String.eqb ?a path] =>
             destruct (String.eqb a path);
               [cbn [option_map snd]; discriminate|]
         end.
  discriminate.
Qed.
